(** * CasinoAnalyzer (Hacker.py): a shallow embedding and its properties

    The analysis engine of [src/Hacker.py] is the class [CasinoAnalyzer]:
    four detectors over a history of outcome strings, two scorers over the
    detected patterns and one decision function.  The functions below follow
    the Python methods statement by statement.

    Conventions of the embedding.
    - A Python [int] is a [Z]; [len] is [Z.of_nat (length _)].
    - A Python [float] obtained from [int / int] and from the few products
      and sums the engine forms is the exact rational [Q].  Every threshold
      the code compares such a number with (0.8, 0.1, 0.4, 70, 80, 90, 75)
      is either hit exactly by a quotient that IEEE division rounds to the
      literal's own double (4/5, 6/15, 6/12) or missed by far more than a
      rounding error, so the comparisons agree with the rational ones.
    - A Python [str] is a string of bytes; the two agree on ASCII text,
      which is all the host's buttons enter ('C', 'V', 'E').
    - An operation that may raise (indexing, [max] of an empty sequence,
      a missing dict key, division) returns in the error monad [res].
    - A pattern dict is a record of the six keys every detector writes and a
      payload that holds the keys of one kind of pattern. *)

From Stdlib Require Import String Ascii List ZArith QArith Lia Bool.
From Stdlib Require Import DecimalString Lqa.
Import ListNotations.

Open Scope string_scope.
Open Scope Z_scope.

(** ** Exceptions and the error monad *)

Inductive exn : Type := Raised (name : string).

Definition IndexError : exn := Raised "IndexError".
Definition KeyError : exn := Raised "KeyError".
Definition ValueError : exn := Raised "ValueError".
Definition ZeroDivisionError : exn := Raised "ZeroDivisionError".

Inductive res (A : Type) : Type :=
| Ok (a : A)
| Exn (e : exn).

Arguments Ok {A} a.
Arguments Exn {A} e.

Definition bind {A B : Type} (c : res A) (k : A -> res B) : res B :=
  match c with
  | Ok a => k a
  | Exn e => Exn e
  end.

Notation "x <- c ;; k" := (bind c (fun x => k))
  (at level 61, c at next level, right associativity).

(** [a and b] on fallible operands: [b] is not evaluated, hence cannot
    raise, when [a] is false. *)
Definition and_then (a b : res bool) : res bool :=
  x <- a ;; if x then b else Ok false.

Infix "&&&" := and_then (at level 40, left associativity).

(** ** Python built-ins *)

Section Builtins.
Context {A : Type}.

Definition len (l : list A) : Z := Z.of_nat (length l).

(** [l[i]], negative indices counted from the end. *)
Definition index (l : list A) (i : Z) : res A :=
  let j := if i <? 0 then i + len l else i in
  if (j <? 0) || (len l <=? j) then Exn IndexError
  else match nth_error l (Z.to_nat j) with
       | Some x => Ok x
       | None => Exn IndexError
       end.

(** A slice bound is shifted by the length when negative and clamped. *)
Definition bound (l : list A) (i : Z) : Z :=
  Z.max 0 (Z.min (len l) (if i <? 0 then i + len l else i)).

(** [l[lo:]] *)
Definition slice_from (l : list A) (lo : Z) : list A :=
  skipn (Z.to_nat (bound l lo)) l.

(** [l[lo:hi]] *)
Definition slice (l : list A) (lo hi : Z) : list A :=
  firstn (Z.to_nat (bound l hi - bound l lo)) (skipn (Z.to_nat (bound l lo)) l).

(** [sum(1 for i in l if cond(i))] *)
Fixpoint count_if (cond : A -> res bool) (l : list A) : res Z :=
  match l with
  | [] => Ok 0
  | i :: l' =>
      b <- cond i ;;
      n <- count_if cond l' ;;
      Ok ((if b then 1 else 0) + n)
  end.

(** [l.append(x)] *)
Definition append (l : list A) (x : A) : list A := (l ++ [x])%list.

(** [max(l, key=key)]: the first element whose key is maximal; [max_from]
    scans the rest of the sequence with the best element so far. *)
Fixpoint max_from (key : A -> Z) (best : A) (l : list A) : A :=
  match l with
  | [] => best
  | x :: l' => max_from key (if key best <? key x then x else best) l'
  end.

Definition max_by (key : A -> Z) (l : list A) : res A :=
  match l with
  | [] => Exn ValueError
  | x :: l' => Ok (max_from key x l')
  end.
End Builtins.

(** [range(lo, hi)] and [range(lo, hi, step)] for a positive step. *)
Definition range (lo hi : Z) : list Z :=
  map (fun k => lo + Z.of_nat k) (seq 0 (Z.to_nat (hi - lo))).

Definition range_step (lo hi step : Z) : list Z :=
  map (fun k => lo + step * Z.of_nat k)
      (seq 0 (Z.to_nat ((hi - lo + step - 1) / step))).

(** [a / b] on ints ("true division"). *)
Definition truediv (a b : Z) : res Q :=
  if b =? 0 then Exn ZeroDivisionError
  else Ok (if 0 <? b then Qmake a (Z.to_pos b) else Qmake (- a) (Z.to_pos (- b))).

Definition Qlt_bool (a b : Q) : bool := negb (Qle_bool b a).

(** [min(a, b)] returns its first argument unless the second is smaller. *)
Definition min_Q (a b : Q) : Q := if Qlt_bool b a then b else a.

(** [str(n)] as an f-string prints an int. *)
Definition str_of_int (n : Z) : string := NilZero.string_of_int (Z.to_int n).

(** [''.join(l)] *)
Definition join (l : list string) : string := String.concat EmptyString l.

(** [s[i]] for [0 <= i]: the one-character string at that place. *)
Definition char_at (s : string) (i : Z) : res string :=
  if i <? 0 then Exn IndexError
  else match String.get (Z.to_nat i) s with
       | Some c => Ok (String c EmptyString)
       | None => Exn IndexError
       end.

Definition dquote : string := String (ascii_of_nat 34) EmptyString.

(** [Counter(l)]: the keys in first-seen order with their counts. *)
Fixpoint counter_add (k : string) (c : list (string * Z)) : list (string * Z) :=
  match c with
  | [] => [(k, 1)]
  | (k', n) :: c' =>
      if (k =? k')%string then (k', n + 1) :: c' else (k', n) :: counter_add k c'
  end.

Definition Counter (l : list string) : list (string * Z) :=
  fold_left (fun c k => counter_add k c) l [].

(** [l.count(x)] *)
Definition count (l : list string) (x : string) : Z :=
  len (filter (fun r => (r =? x)%string) l).

(** ** Patterns, assessments, predictions *)

Inductive payload : Type :=
| NoPayload
| CyclePayload (cycle_size : Z) (pattern : string) (repetitions : Z)
| BalancePayload (window_size : Z) (balance : string)
| CompensationPayload (window_size : Z) (imbalance : Z) (favored_color : string)
| TieAfterSequence (position : Z) (sequence_color : string) (sequence_length : Z)
| TieBeforeReversal (position : Z) (from_color to_color : string).

Record Pattern : Type := mkPattern {
  type : string;
  strength : Q;
  risk : string;
  description : string;
  manipulation : string;
  predictability : option Q;
  extra : payload
}.

(** [p.get('predictability', 0)] *)
Definition get_predictability (p : Pattern) : Q :=
  match predictability p with Some q => q | None => 0%Q end.

(** [p.get('repetitions', 0)] *)
Definition get_repetitions (p : Pattern) : Z :=
  match extra p with CyclePayload _ _ r => r | _ => 0 end.

(** [p['repetitions']], [p['pattern']], [p['favored_color']] *)
Definition item_repetitions (p : Pattern) : res Z :=
  match extra p with CyclePayload _ _ r => Ok r | _ => Exn KeyError end.

Definition item_pattern (p : Pattern) : res string :=
  match extra p with CyclePayload _ s _ => Ok s | _ => Exn KeyError end.

Definition item_favored_color (p : Pattern) : res string :=
  match extra p with CompensationPayload _ _ c => Ok c | _ => Exn KeyError end.

Definition window_size_of (p : Pattern) : option Z :=
  match extra p with
  | BalancePayload w _ => Some w
  | CompensationPayload w _ _ => Some w
  | _ => None
  end.

Record Assessment : Type := mkAssessment {
  level : string;
  score : Z;
  factors : list string   (* the key is 'signs' in detect_manipulation *)
}.

Record Prediction : Type := mkPrediction {
  color : option string;
  confidence : Q;
  reasoning : string;
  strategy : string
}.

(** ** The detectors *)

(** [[r for r in results if r != 'E']] *)
Definition non_empate (results : list string) : list string :=
  filter (fun r => negb (r =? "E")%string) results.

(** *** analyze_micro_patterns *)

Definition double_pattern_count (last6 : list string) : res Z :=
  count_if (fun i =>
              Ok (i + 1 <? 6)
              &&& (a <- index last6 i ;; b <- index last6 (i + 1) ;; Ok (a =? b)%string)
              &&& (a <- index last6 i ;; Ok (negb (a =? "E")%string)))
           (range_step 0 6 2).

Definition micro_alternations (last8_non_empate : list string) : res Z :=
  count_if (fun i =>
              a <- index last8_non_empate i ;;
              b <- index last8_non_empate (i - 1) ;;
              Ok (negb (a =? b)%string))
           (range 1 (Z.min 6 (len last8_non_empate))).

Definition micro_double_pattern (double_pattern_count : Z) (strength : Q)
  : Pattern :=
  {| type := "micro_double_pattern";
     strength := strength;
     risk := if double_pattern_count =? 3 then "critical" else "high";
     description :=
       "Padrão 2x2 repetitivo (" ++ str_of_int double_pattern_count ++ "/3)";
     manipulation :=
       if double_pattern_count =? 3
       then "CRÍTICA - Sistema forçando padrão" else "ALTA";
     predictability := Some 85%Q;
     extra := NoPayload |}.

Definition micro_alternation (micro_alternations : Z) (strength : Q) : Pattern :=
  {| type := "micro_alternation";
     strength := strength;
     risk := if micro_alternations =? 5 then "critical" else "high";
     description :=
       "Micro-alternação suspeita (" ++ str_of_int micro_alternations ++ "/5)";
     manipulation := "Sistema induzindo alternância artificial";
     predictability := Some 90%Q;
     extra := NoPayload |}.

Definition analyze_micro_patterns (results : list string) : res (list Pattern) :=
  if len results <? 6 then Ok []
  else
    let last6 := slice_from results (-6) in
    dpc <- double_pattern_count last6 ;;
    patterns <- (if dpc >=? 2
                 then s <- truediv dpc 3 ;; Ok [micro_double_pattern dpc s]
                 else Ok []) ;;
    let last8_non_empate := slice_from (non_empate results) (-8) in
    if len last8_non_empate >=? 6 then
      ma <- micro_alternations last8_non_empate ;;
      if ma >=? 4
      then s <- truediv ma 5 ;; Ok (append patterns (micro_alternation ma s))
      else Ok patterns
    else Ok patterns.

(** *** detect_hidden_cycles *)

(** A [for] loop whose body appends to [patterns]. *)
Fixpoint for_append {A B : Type} (body : A -> res (list B)) (l : list A)
  : res (list B) :=
  match l with
  | [] => Ok []
  | x :: l' =>
      ps <- body x ;;
      qs <- for_append body l' ;;
      Ok (ps ++ qs)%list
  end.

Definition cycles_of (non_empate : list string) (cycle_size : Z) : list string :=
  map (fun i => join (slice non_empate i (i + cycle_size)))
      (range 0 (len non_empate - cycle_size + 1)).

Definition repeated_of (cycle_counts : list (string * Z)) : list (string * Z) :=
  filter (fun cc => snd cc >=? 2) cycle_counts.

Definition hidden_cycle (cycle_size : Z) (most_repeated : string) (count : Z)
           (third : Q) : Pattern :=
  {| type := "hidden_cycle";
     strength := min_Q third 1;
     risk := if count >=? 3 then "high" else "medium";
     description :=
       "Ciclo oculto detectado: " ++ dquote ++ most_repeated ++ dquote
       ++ " (" ++ str_of_int count ++ "x)";
     manipulation :=
       if count >=? 3 then "Sistema usando ciclo programado"
       else "Possível ciclo induzido";
     predictability := Some (inject_Z (70 + count * 5));
     extra := CyclePayload cycle_size most_repeated count |}.

(** The body of the loop over the cycle sizes. *)
Definition hidden_cycles_of_size (non_empate : list string) (cycle_size : Z)
  : res (list Pattern) :=
  let cycles := cycles_of non_empate cycle_size in
  let cycle_counts := Counter cycles in
  let repeated := repeated_of cycle_counts in
  match repeated with
  | [] => Ok []
  | _ :: _ =>
      best <- max_by snd repeated ;;
      let '(most_repeated, count) := best in
      third <- truediv count 3 ;;
      Ok [hidden_cycle cycle_size most_repeated count third]
  end.

Definition detect_hidden_cycles (results : list string) : res (list Pattern) :=
  let non_empate := non_empate results in
  if len non_empate <? 12 then Ok []
  else for_append (hidden_cycles_of_size non_empate) (range 3 7).

(** *** analyze_compensation_patterns *)

Definition artificial_balance (window_size c_count v_count : Z) (balance_ratio : Q)
  : Pattern :=
  {| type := "artificial_balance";
     strength := (1 - balance_ratio)%Q;
     risk := "high";
     description :=
       "Equilíbrio artificial em " ++ str_of_int window_size ++ " jogadas";
     manipulation := "Sistema forçando distribuição 50/50";
     predictability := Some 85%Q;
     extra := BalancePayload window_size
                (str_of_int c_count ++ "C/" ++ str_of_int v_count ++ "V") |}.

Definition compensation_pending (window_size imbalance c_count v_count : Z)
           (balance_ratio : Q) : Pattern :=
  let underrepresented := if c_count <? v_count then "C" else "V" in
  {| type := "compensation_pending";
     strength := balance_ratio;
     risk := "medium";
     description :=
       "Compensação pendente: " ++ str_of_int c_count ++ "C vs "
       ++ str_of_int v_count ++ "V";
     manipulation := "Sistema deve favorecer " ++ underrepresented;
     predictability := Some (60 + balance_ratio * 20)%Q;
     extra := CompensationPayload window_size imbalance underrepresented |}.

(** The body of the loop over the window sizes. *)
Definition compensation_window (non_empate : list string) (window_size : Z)
  : res (list Pattern) :=
  if len non_empate >=? window_size then
    let window := slice_from non_empate (- window_size) in
    let c_count := count window "C" in
    let v_count := count window "V" in
    let imbalance := Z.abs (c_count - v_count) in
    balance_ratio <- truediv imbalance window_size ;;
    let balanced :=
      if Qlt_bool balance_ratio (1 # 10) && (window_size >=? 15)
      then [artificial_balance window_size c_count v_count balance_ratio]
      else [] in
    let pending :=
      if Qlt_bool (4 # 10) balance_ratio
      then [compensation_pending window_size imbalance c_count v_count
                                 balance_ratio]
      else [] in
    Ok (balanced ++ pending)%list
  else Ok [].

Definition windows : list Z := [12; 15; 18].

Definition analyze_compensation_patterns (results : list string)
  : res (list Pattern) :=
  let non_empate := non_empate results in
  let n := len non_empate in
  if n <? 20 then Ok []
  else for_append (compensation_window non_empate) windows.

(** *** analyze_strategic_ties *)

(** [enumerate(l)] *)
Definition enumerate {A : Type} (l : list A) : list (Z * A) :=
  combine (range 0 (len l)) l.

Definition tie_positions_of (results : list string) : list Z :=
  map fst (filter (fun ir => (snd ir =? "E")%string) (enumerate results)).

(** The backward loop of [get_sequence_length]: [todo] holds the indices still
    to visit, the loop stops ([break]) at the first other outcome. *)
Fixpoint sequence_scan (seq : list string) (color : string) (todo : list Z)
         (length : Z) : res Z :=
  match todo with
  | [] => Ok length
  | i :: todo' =>
      x <- index seq i ;;
      if (x =? color)%string then sequence_scan seq color todo' (length + 1)
      else Ok length
  end.

Definition get_sequence_length (seq : list string) : res Z :=
  match seq with
  | [] => Ok 0
  | _ :: _ =>
      color <- index seq (-1) ;;
      sequence_scan seq color (rev (range 0 (len seq - 1))) 1
  end.

Definition strategic_tie_after_sequence (tie_pos : Z) (sequence_color : string)
           (sequence_length : Z) : Pattern :=
  {| type := "strategic_tie_after_sequence";
     strength := 7 # 10;
     risk := "high";
     description :=
       "Empate estratégico após " ++ str_of_int sequence_length ++ "x "
       ++ sequence_color;
     manipulation := "Empate usado para quebrar momentum";
     predictability := Some 75%Q;
     extra := TieAfterSequence tie_pos sequence_color sequence_length |}.

Definition strategic_tie_before_reversal (tie_pos : Z)
           (before_color after_color : string) : Pattern :=
  {| type := "strategic_tie_before_reversal";
     strength := 8 # 10;
     risk := "high";
     description :=
       "Empate estratégico antes de reversão " ++ before_color ++ " → "
       ++ after_color;
     manipulation := "Empate usado para mascarar mudança direcionada";
     predictability := Some 80%Q;
     extra := TieBeforeReversal tie_pos before_color after_color |}.

(** The body of the loop over the tie positions. *)
Definition strategic_ties_at (results : list string) (tie_pos : Z)
  : res (list Pattern) :=
  if tie_pos >=? 3 then
    let before := slice results (Z.max 0 (tie_pos - 3)) tie_pos in
    let after := slice results (tie_pos + 1) (tie_pos + 4) in
    c1 <- Ok (len before >=? 2)
          &&& (a <- index before (-1) ;; b <- index before (-2) ;;
               Ok (a =? b)%string)
          &&& (a <- index before (-1) ;; Ok (negb (a =? "E")%string)) ;;
    first <- (if c1 : bool then
                sequence_color <- index before (-1) ;;
                sequence_length <- get_sequence_length before ;;
                Ok [strategic_tie_after_sequence tie_pos sequence_color
                                                 sequence_length]
              else Ok []) ;;
    c2 <- Ok (len after >=? 2) &&& Ok (len before >=? 1)
          &&& (a <- index before (-1) ;; Ok (negb (a =? "E")%string))
          &&& (a <- index after 0 ;; Ok (negb (a =? "E")%string)) ;;
    second <- (if c2 : bool then
                 before_color <- index before (-1) ;;
                 after_color <- index after 0 ;;
                 if negb (before_color =? after_color)%string
                 then Ok [strategic_tie_before_reversal tie_pos before_color
                                                        after_color]
                 else Ok []
               else Ok []) ;;
    Ok (first ++ second)%list
  else Ok [].

Definition analyze_strategic_ties (results : list string) : res (list Pattern) :=
  if len results <? 8 then Ok []
  else for_append (strategic_ties_at results) (tie_positions_of results).


(** ** The scorers *)

(** The body of the loop of [assess_risk] on the pair
    [(risk_score, risk_factors)]. *)
Definition risk_step (acc : Z * list string) (p : Pattern) : Z * list string :=
  let '(risk_score, risk_factors) := acc in
  if (type p =? "micro_double_pattern")%string && Qle_bool (8 # 10) (strength p)
  then (risk_score + 70, append risk_factors "🚨 Padrão 2x2 crítico detectado")
  else if (type p =? "micro_alternation")%string && Qle_bool (8 # 10) (strength p)
  then (risk_score + 65, append risk_factors "⚠️ Alternação artificial crítica")
  else if (type p =? "hidden_cycle")%string && (get_repetitions p >=? 3)
  then (risk_score + 60,
        append risk_factors ("🔄 Ciclo programado ativo ("
                           ++ str_of_int (get_repetitions p) ++ "x)"))
  else if (type p =? "artificial_balance")%string
  then (risk_score + 55, append risk_factors "⚖️ Equilíbrio artificial forçado")
  else if (type p =? "intentional_break")%string
  then (risk_score + 50, append risk_factors "💥 Quebra intencional detectada")
  else if prefix "strategic_tie" (type p)
  then (risk_score + 40, append risk_factors "🔶 Empate estratégico detectado")
  else (risk_score, risk_factors).

Definition risk_level (risk_score : Z) : string :=
  if risk_score >=? 80 then "critical"
  else if risk_score >=? 55 then "high"
  else if risk_score >=? 30 then "medium"
  else "low".

Definition assess_risk (patterns : list Pattern) : Assessment :=
  let '(risk_score, risk_factors) := fold_left risk_step patterns (0, []) in
  {| level := risk_level risk_score;
     score := Z.min risk_score 100;
     factors := risk_factors |}.

(** The body of the loop of [detect_manipulation]. *)
Definition manipulation_step (acc : Z * list string) (p : Pattern)
  : Z * list string :=
  let '(manipulation_score, manipulation_signs) := acc in
  let predictability := get_predictability p in
  if Qle_bool 90 predictability
  then (manipulation_score + 80,
        append manipulation_signs
          ("🤖 Padrão altamente artificial: " ++ description p))
  else if Qle_bool 80 predictability
  then (manipulation_score + 60,
        append manipulation_signs
          ("🎯 Padrão programado: " ++ description p))
  else if Qle_bool 70 predictability
  then (manipulation_score + 40,
        append manipulation_signs
          ("⚙️ Padrão suspeito: " ++ description p))
  else (manipulation_score, manipulation_signs).

Definition manipulation_level (manipulation_score : Z) : string :=
  if manipulation_score >=? 80 then "critical"
  else if manipulation_score >=? 60 then "high"
  else if manipulation_score >=? 35 then "medium"
  else "low".

(** The parameter [risk] of the method is not read by its body. *)
Definition detect_manipulation (patterns : list Pattern) (risk : Assessment)
  : Assessment :=
  let '(manipulation_score, manipulation_signs) :=
    fold_left manipulation_step patterns (0, []) in
  {| level := manipulation_level manipulation_score;
     score := Z.min manipulation_score 100;
     factors := manipulation_signs |}.

(** ** The predictor *)

(** The loop of [predict_next_in_cycle]: it compares and stops ([break]) at
    the first mismatch; it assigns nothing that is read afterwards. *)
Fixpoint cycle_scan (pattern : string) (non_empate : list string)
         (cycle_len : Z) (todo : list Z) : res unit :=
  match todo with
  | [] => Ok tt
  | i :: todo' =>
      expected <- char_at pattern (i mod cycle_len) ;;
      x <- index non_empate i ;;
      if negb (x =? expected)%string then Ok tt
      else cycle_scan pattern non_empate cycle_len todo'
  end.

Definition str_len (s : string) : Z := Z.of_nat (String.length s).

Definition predict_next_in_cycle (results : list string) (pattern : string)
  : res (option string) :=
  let non_empate := non_empate results in
  if (pattern =? EmptyString)%string || (len non_empate =? 0) then Ok None
  else
    let cycle_len := str_len pattern in
    _ <- cycle_scan pattern non_empate cycle_len (range 0 (len non_empate)) ;;
    let pos := len non_empate mod cycle_len in
    if pos <? cycle_len then c <- char_at pattern pos ;; Ok (Some c)
    else Ok None.

(** [counter.most_common(1)]: the first item of maximal count, if any. *)
Definition most_common_1 (counter : list (string * Z)) : list (string * Z) :=
  match max_by snd counter with
  | Ok item => [item]
  | Exn _ => []
  end.

(** A string is true when it is not empty. *)
Definition truthy (s : option string) : bool :=
  match s with
  | Some (String _ _) => true
  | _ => false
  end.

Definition default_prediction : Prediction :=
  {| color := None;
     confidence := 0;
     reasoning := EmptyString;
     strategy := "AGUARDAR MELHORES CONDIÇÕES" |}.

(** The last branch of [make_prediction] (from [non_empate = ...] on).
    [confidence] is the exact value of [(count / len) * 100], of which the
    code holds the nearest double: what is stated of it is limited to what
    rounding keeps (bounds and the non-strict order). *)
Definition bet_on_dominant (results : list string) : res Prediction :=
  let non_empate := non_empate results in
  match non_empate with
  | [] => Ok default_prediction
  | _ :: _ =>
      let counter := Counter non_empate in
      item <- index (most_common_1 counter) 0 ;;
      let '(most_common_color, count) := item in
      share <- truediv count (len non_empate) ;;
      let confidence := (share * 100)%Q in
      Ok {| color := Some most_common_color;
            confidence := min_Q confidence 75;
            reasoning :=
              "Aposta baseada em frequência histórica de " ++ dquote
              ++ most_common_color ++ dquote ++ " (" ++ str_of_int count ++ "/"
              ++ str_of_int (len non_empate) ++ ")";
            strategy := "APOSTAR NA PRINCIPAL COR" |}
  end.

Definition is_compensation_pending (p : Pattern) : bool :=
  (type p =? "compensation_pending")%string.

Definition is_repeated_cycle (p : Pattern) : bool :=
  (type p =? "hidden_cycle")%string && (get_repetitions p >=? 2).

Definition both_low (risk manipulation : Assessment) : bool :=
  (level risk =? "low")%string && (level manipulation =? "low")%string.

(** The cycle branch and what follows it. *)
Definition follow_cycle (results : list string) (patterns : list Pattern)
           (risk manipulation : Assessment) : res Prediction :=
  match find is_repeated_cycle patterns with
  | Some cycle_pattern =>
      if both_low risk manipulation then
        pattern <- item_pattern cycle_pattern ;;
        next_color <- predict_next_in_cycle results pattern ;;
        if truthy next_color then
          repetitions <- item_repetitions cycle_pattern ;;
          Ok {| color := next_color;
                confidence := inject_Z (Z.min 70 (50 + repetitions * 5));
                reasoning :=
                  "Ciclo detectado: " ++ dquote ++ pattern ++ dquote ++ " ("
                  ++ str_of_int repetitions ++ "x)";
                strategy := "SEGUIR CICLO" |}
        else bet_on_dominant results
      else bet_on_dominant results
  | None => bet_on_dominant results
  end.

Definition make_prediction (results : list string) (patterns : list Pattern)
           (risk manipulation : Assessment) : res Prediction :=
  if (level risk =? "critical")%string || (level manipulation =? "critical")%string
  then Ok {| color := None;
             confidence := 0;
             reasoning := "🚨 CONDIÇÕES CRÍTICAS - Manipulação máxima detectada";
             strategy := "PARAR COMPLETAMENTE" |}
  else if (level manipulation =? "high")%string
  then Ok {| color := None;
             confidence := 0;
             reasoning := "⛔ Manipulação alta - Evitar apostas";
             strategy := "AGUARDAR NORMALIZAÇÃO" |}
  else
    match find is_compensation_pending patterns with
    | Some compensation_pattern =>
        if both_low risk manipulation then
          color <- item_favored_color compensation_pattern ;;
          Ok {| color := Some color;
                confidence :=
                  min_Q 75 (55 + strength compensation_pattern * 20)%Q;
                reasoning :=
                  "Compensação estatística esperada: "
                  ++ description compensation_pattern;
                strategy := "APOSTAR COMPENSAÇÃO" |}
        else follow_cycle results patterns risk manipulation
    | None => follow_cycle results patterns risk manipulation
    end.

(** ** The pipeline

    [main] runs the four detectors on the history, concatenates their
    patterns and feeds the scorers and the predictor (lines 328-340). *)

Record Analysis : Type := mkAnalysis {
  patterns : list Pattern;
  risk_result : Assessment;
  manipulation_result : Assessment;
  prediction : Prediction
}.

Definition analyze (history : list string) : res Analysis :=
  micro_patterns <- analyze_micro_patterns history ;;
  hidden_cycles <- detect_hidden_cycles history ;;
  compensation_patterns <- analyze_compensation_patterns history ;;
  strategic_ties <- analyze_strategic_ties history ;;
  let patterns :=
    (micro_patterns ++ hidden_cycles ++ compensation_patterns
     ++ strategic_ties)%list in
  let risk := assess_risk patterns in
  let manipulation := detect_manipulation patterns risk in
  prediction <- make_prediction history patterns risk manipulation ;;
  Ok {| patterns := patterns;
        risk_result := risk;
        manipulation_result := manipulation;
        prediction := prediction |}.


(** ** Quantities the statements speak about *)

(** One pair of [last6] counted by the 2x2 check. *)
Definition pair_hit (x y : string) : Z :=
  if (x =? y)%string && negb (x =? "E")%string then 1 else 0.

(** The number of adjacent pairs of a list that differ. *)
Fixpoint adjacent_diffs (l : list string) : Z :=
  match l with
  | a :: (b :: _) as t => (if (b =? a)%string then 0 else 1) + adjacent_diffs t
  | _ => 0
  end.

(** The up-to-8 most recent non-tie outcomes. *)
Definition last8_non_empate (results : list string) : list string :=
  slice_from (non_empate results) (-8).

(** The detector emits a pattern of the given type. *)
Definition emits (detector : list string -> res (list Pattern))
           (results : list string) (ty : string) : Prop :=
  exists patterns p,
    detector results = Ok patterns /\ In p patterns /\ type p = ty.

(** The history of the 2x2 scenario and a history whose alternation lies
    at the start of its last eight non-tie outcomes. *)
Definition scenario_history : list string :=
  ["C"; "C"; "V"; "V"; "E"; "C"; "C"; "V"; "V"; "C"; "V"; "V"].

Definition early_alternation_history : list string :=
  ["C"; "V"; "C"; "V"; "C"; "V"; "V"; "V"].

(** What the predictor returns in its first branch. *)
Definition stop_prediction : Prediction :=
  {| color := None;
     confidence := 0;
     reasoning := "🚨 CONDIÇÕES CRÍTICAS - Manipulação máxima detectada";
     strategy := "PARAR COMPLETAMENTE" |}.

(** A pattern list with a pending compensation and a repeated cycle. *)
Definition tempting_patterns : list Pattern :=
  [compensation_pending 12 6 9 3 (6 # 12); hidden_cycle 3 "CCV" 2 (2 # 3)].


(** Counts and imbalance of the last [W] non-tie outcomes. *)
Definition c_count_of (results : list string) (W : Z) : Z :=
  count (slice_from (non_empate results) (- W)) "C".

Definition v_count_of (results : list string) (W : Z) : Z :=
  count (slice_from (non_empate results) (- W)) "V".

Definition imbalance_of (results : list string) (W : Z) : Z :=
  Z.abs (c_count_of results W - v_count_of results W).

(** What the compensation detector promises about a pattern [p] emitted
    for the window size [W]. *)
Definition window_pattern_ok (results : list string) (W : Z) (p : Pattern)
  : Prop :=
  let ratio := imbalance_of results W # Z.to_pos W in
  window_size_of p = Some W /\
  ((type p = "artificial_balance" /\ (ratio < 1 # 10)%Q /\ 15 <= W) \/
   (type p = "compensation_pending" /\ (4 # 10 < ratio)%Q /\
    strength p = ratio /\
    ((extra p = CompensationPayload W (imbalance_of results W) "C" /\
      c_count_of results W < v_count_of results W) \/
     (extra p = CompensationPayload W (imbalance_of results W) "V" /\
      v_count_of results W < c_count_of results W)))).

(** A history on which the window of 12 is lopsided. *)
Definition lopsided_history : list string :=
  (repeat "C" 15 ++ ["V"; "C"; "V"; "C"; "V"; "C"])%list.

(** What the predictor returns in its cycle branch. *)
Definition cycle_prediction (next_color pattern : string) (repetitions : Z)
  : Prediction :=
  {| color := Some next_color;
     confidence := inject_Z (Z.min 70 (50 + repetitions * 5));
     reasoning :=
       "Ciclo detectado: " ++ dquote ++ pattern ++ dquote ++ " ("
       ++ str_of_int repetitions ++ "x)";
     strategy := "SEGUIR CICLO" |}.

Definition low_assessment : Assessment :=
  {| level := "low"; score := 0; factors := [] |}.

(** The item [counter.most_common(1)[0]] of the last branch of the
    predictor, and the share [count / len(non_empate)] it has. *)
Definition dominant (results : list string) : res (string * Z) :=
  index (most_common_1 (Counter (non_empate results))) 0.

Definition dominant_share (results : list string) : Q :=
  match dominant results with
  | Ok (_, count) => count # Z.to_pos (len (non_empate results))
  | Exn _ => 0
  end.

(** The count a [Counter] holds for a key (0 when the key is absent). *)
Definition lookup (k : string) (c : list (string * Z)) : Z :=
  match find (fun kv => (fst kv =? k)%string) c with
  | Some kv => snd kv
  | None => 0
  end.

(** Two histories that differ in their last outcome only. *)
Definition mostly_C : list string := ["C"; "C"; "C"; "C"; "V"].
Definition only_C : list string := ["C"; "C"; "C"; "C"; "C"].

(** What the predictor returns in its last branch. *)
Definition dominant_prediction (most_common_color : string) (count total : Z)
  : Prediction :=
  {| color := Some most_common_color;
     confidence := min_Q ((count # Z.to_pos total) * 100) 75;
     reasoning :=
       "Aposta baseada em frequência histórica de " ++ dquote
       ++ most_common_color ++ dquote ++ " (" ++ str_of_int count ++ "/"
       ++ str_of_int total ++ ")";
     strategy := "APOSTAR NA PRINCIPAL COR" |}.

(** A pattern of type compensation_pending carries the keys that the
    predictor reads from it. *)
Definition well_keyed (p : Pattern) : Prop :=
  type p = "compensation_pending" ->
  exists window_size imbalance favored_color,
    extra p = CompensationPayload window_size imbalance favored_color.

(** The three-symbol alphabet of the host's buttons, and the error that the
    specification names for a value outside it; no statement of the source
    raises it. *)
Definition valid_outcome (r : string) : bool :=
  (r =? "C")%string || (r =? "V")%string || (r =? "E")%string.

Definition InvalidOutcomeError : exn := Raised "InvalidOutcomeError".

Definition foreign_history : list string := ["X"; "E"; "V"; "X"].

(** What the hidden-cycle detector promises about an emitted pattern: it
    is the [hidden_cycle] record of a cycle size in 3..6 and of a substring
    that occurs [n >= 2] times among the windows of that size, no other
    window occurring more often. *)
Definition cycle_of_size_ok (non_empate : list string) (cycle_size : Z)
           (p : Pattern) : Prop :=
  exists most_repeated n,
    p = hidden_cycle cycle_size most_repeated n (n # 3) /\
    2 <= n /\
    n = count (cycles_of non_empate cycle_size) most_repeated /\
    forall s, count (cycles_of non_empate cycle_size) s <= n.

Definition cycle_pattern_ok (results : list string) (p : Pattern) : Prop :=
  exists cycle_size,
    In cycle_size (range 3 7) /\
    cycle_of_size_ok (non_empate results) cycle_size p.

(** The patterns of a list that carry the key cycle_size with value [sz]. *)
Definition of_cycle_size (sz : Z) (patterns : list Pattern) : list Pattern :=
  filter (fun p => match extra p with
                   | CyclePayload cycle_size _ _ => cycle_size =? sz
                   | _ => false
                   end) patterns.

(** The length of the run of [color] at the head of a list, and the
    length of the run of its last element at the end of a sequence. *)
Fixpoint leading_run (color : string) (l : list string) : Z :=
  match l with
  | x :: t => if (x =? color)%string then 1 + leading_run color t else 0
  | [] => 0
  end.

Definition trailing_run (seq : list string) : Z :=
  match rev seq with
  | [] => 0
  | color :: t => 1 + leading_run color t
  end.

(** What the strategic-tie detector promises about an emitted pattern:
    it sits at a tie that has three outcomes a b c before it. *)
Definition tie_pattern_ok (results : list string) (p : Pattern) : Prop :=
  exists pre a b c post,
    results = (pre ++ [a; b; c] ++ "E" :: post)%list /\
    let tie_pos := len pre + 3 in
    (p = strategic_tie_after_sequence tie_pos c
           (if (a =? c)%string then 3 else 2) /\
     b = c /\ c <> "E")
    \/
    (exists x y rest,
        post = x :: y :: rest /\
        p = strategic_tie_before_reversal tie_pos c x /\
        c <> "E" /\ x <> "E" /\ c <> x).

(** The patterns that one window size contributes, and the least
    imbalance |C - V| that makes a compensation pending for it. *)
Definition window_patterns (results : list string) (W : Z) : list Pattern :=
  let ratio := imbalance_of results W # Z.to_pos W in
  ((if Qlt_bool ratio (1 # 10) && (W >=? 15)
    then [artificial_balance W (c_count_of results W) (v_count_of results W)
                             ratio]
    else [])
   ++ (if Qlt_bool (4 # 10) ratio
       then [compensation_pending W (imbalance_of results W)
                                  (c_count_of results W) (v_count_of results W)
                                  ratio]
       else []))%list.

Definition pending_threshold (W : Z) : Z :=
  if W =? 12 then 5 else if W =? 15 then 7 else 8.

(** What the predictor returns in its compensation branch. *)
Definition compensation_prediction (compensation_pattern : Pattern)
           (favored_color : string) : Prediction :=
  {| color := Some favored_color;
     confidence := min_Q 75 (55 + strength compensation_pattern * 20)%Q;
     reasoning :=
       "Compensação estatística esperada: " ++ description compensation_pattern;
     strategy := "APOSTAR COMPENSAÇÃO" |}.

(** What the predictor returns in its second branch. *)
Definition wait_prediction : Prediction :=
  {| color := None;
     confidence := 0;
     reasoning := "⛔ Manipulação alta - Evitar apostas";
     strategy := "AGUARDAR NORMALIZAÇÃO" |}.

(** What every pattern of the pipeline satisfies, whichever detector
    emitted it. *)
Definition pipeline_pattern_ok (p : Pattern) : Prop :=
  (type p = "hidden_cycle" -> Qle_bool 80 (get_predictability p) = true) /\
  (type p = "compensation_pending" ->
   exists window_size imbalance favored_color,
     extra p = CompensationPayload window_size imbalance favored_color /\
     (favored_color = "C" \/ favored_color = "V") /\
     (4 # 10 < strength p)%Q).

(** The ways the prediction of an analysis can come about. *)
Definition prediction_case (history : list string) (r : Analysis) : Prop :=
  prediction r = stop_prediction
  \/ prediction r = wait_prediction
  \/ (exists cp c,
         In cp (patterns r) /\ (c = "C" \/ c = "V") /\
         (4 # 10 < strength cp)%Q /\
         prediction r = compensation_prediction cp c)
  \/ (non_empate history = [] /\ prediction r = default_prediction)
  \/ (exists c n,
         non_empate history <> [] /\ dominant history = Ok (c, n) /\
         prediction r = dominant_prediction c n (len (non_empate history))).

(** The strategies an analysis can end with. *)
Definition pipeline_strategies : list string :=
  ["PARAR COMPLETAMENTE"; "AGUARDAR NORMALIZAÇÃO"; "APOSTAR COMPENSAÇÃO";
   "AGUARDAR MELHORES CONDIÇÕES"; "APOSTAR NA PRINCIPAL COR"].

(** A history over the alphabet of the host's buttons. *)
Definition valid_history (history : list string) : Prop :=
  Forall (fun r => valid_outcome r = true) history.

(** The sum of the counts of a [Counter], and the eight windows of size 3
    over the two non-tie outcomes. *)
Definition total (c : list (string * Z)) : Z :=
  fold_right (fun kv acc => snd kv + acc) 0 c.

Definition windows_of_three : list string :=
  ["CCC"; "CCV"; "CVC"; "CVV"; "VCC"; "VCV"; "VVC"; "VVV"].

(** ** The host: the session history of [main]

    One run of [main] (lines 296-340) reads the five buttons, updates the
    history kept in the session state and, when the history is not empty,
    analyzes it.  The buttons are the inputs of the run; what [main] writes
    to the page is left out. *)

Record Buttons : Type := mkButtons {
  btn_c : bool;
  btn_v : bool;
  btn_e : bool;
  btn_clear : bool;
  btn_undo : bool
}.

(** [l.pop()]: the list without its last element; raises on the empty list. *)
Definition pop {A : Type} (l : list A) : res (list A) :=
  match l with
  | [] => Exn IndexError
  | _ :: _ => Ok (removelast l)
  end.

(** Lines 296-316; [session] is [None] when the key 'history' is not in the
    session state yet. *)
Definition update_history (session : option (list string)) (b : Buttons)
  : res (list string) :=
  let history := match session with Some h => h | None => [] end in
  let history := if btn_c b then append history "C" else history in
  let history := if btn_v b then append history "V" else history in
  let history := if btn_e b then append history "E" else history in
  let history := if btn_clear b then [] else history in
  if btn_undo b then
    match history with
    | [] => Ok history
    | _ :: _ => pop history
    end
  else Ok history.

(** Lines 296-340: the new history and, unless it is empty, its analysis. *)
Definition run_main (session : option (list string)) (b : Buttons)
  : res (list string * option Analysis) :=
  history <- update_history session b ;;
  match history with
  | [] => Ok (history, None)
  | _ :: _ => r <- analyze history ;; Ok (history, Some r)
  end.

(** The histories that runs of [main] can produce from a fresh session. *)
Inductive reachable : list string -> Prop :=
| reachable_first (b : Buttons) (h : list string) :
    update_history None b = Ok h -> reachable h
| reachable_next (b : Buttons) (h h' : list string) :
    reachable h -> update_history (Some h) b = Ok h' -> reachable h'.

(** One button pressed. *)
Definition no_button : Buttons := mkButtons false false false false false.
Definition click_undo : Buttons := mkButtons false false false false true.
Definition click_clear : Buttons := mkButtons false false false true false.

Definition click (outcome : string) : Buttons :=
  mkButtons (outcome =? "C")%string (outcome =? "V")%string
            (outcome =? "E")%string false false.

(** * Properties *)

(** ** Facts about the built-ins *)

Lemma len_nonneg {A : Type} (l : list A) : 0 <= len l.
Proof. unfold len. lia. Qed.

Lemma len_cons {A : Type} (x : A) (l : list A) : len (x :: l) = len l + 1.
Proof. unfold len. simpl length. lia. Qed.

Lemma len_app {A : Type} (l1 l2 : list A) : len (l1 ++ l2) = len l1 + len l2.
Proof. unfold len. rewrite length_app. lia. Qed.

(** Indexing inside the bounds returns the element. *)
Lemma index_ok {A : Type} (l : list A) (i : Z) :
  - len l <= i < len l -> exists x, index l i = Ok x.
Proof.
  intros Hi. unfold index.
  set (j := if i <? 0 then i + len l else i).
  assert (Hj : 0 <= j < len l).
  { subst j. destruct (Z.ltb_spec i 0); lia. }
  replace ((j <? 0) || (len l <=? j)) with false
    by (symmetry; apply orb_false_iff; split; [apply Z.ltb_ge | apply Z.leb_gt]; lia).
  destruct (nth_error l (Z.to_nat j)) as [x|] eqn:E.
  - now exists x.
  - apply nth_error_None in E. unfold len in Hj. lia.
Qed.

Lemma index_nonneg {A : Type} (l : list A) (i : Z) (x : A) :
  0 <= i -> nth_error l (Z.to_nat i) = Some x -> index l i = Ok x.
Proof.
  intros Hi E. unfold index.
  assert (Hlt : (Z.to_nat i < length l)%nat)
    by (apply nth_error_Some; congruence).
  replace (i <? 0) with false by (symmetry; apply Z.ltb_ge; lia).
  replace ((i <? 0) || (len l <=? i)) with false.
  - now rewrite E.
  - symmetry. apply orb_false_iff. unfold len.
    split; [apply Z.ltb_ge | apply Z.leb_gt]; lia.
Qed.

(** [l[k:]] for a negative [k] keeps the last [-k] elements. *)
Lemma slice_from_last_length {A : Type} (l : list A) (k : Z) :
  k < 0 -> - k <= len l -> length (slice_from l k) = Z.to_nat (- k).
Proof.
  intros Hk Hl. unfold slice_from, bound.
  replace (k <? 0) with true by (symmetry; apply Z.ltb_lt; lia).
  rewrite length_skipn. unfold len in *. lia.
Qed.

Lemma slice_from_short {A : Type} (l : list A) (k : Z) :
  k < 0 -> len l <= - k -> slice_from l k = l.
Proof.
  intros Hk Hl. unfold slice_from, bound.
  replace (k <? 0) with true by (symmetry; apply Z.ltb_lt; lia).
  replace (Z.to_nat (Z.max 0 (Z.min (len l) (k + len l)))) with 0%nat by lia.
  reflexivity.
Qed.

Lemma length_six {A : Type} (l : list A) :
  length l = 6%nat -> exists a b c d e f, l = [a; b; c; d; e; f].
Proof.
  destruct l as [|a [|b [|c [|d [|e [|f [|g l]]]]]]]; simpl; try discriminate.
  intros _. now exists a, b, c, d, e, f.
Qed.


(** ** The micro-pattern detector *)

Lemma truediv_pos (a b : Z) : 0 < b -> truediv a b = Ok (a # Z.to_pos b).
Proof.
  intros Hb. unfold truediv.
  replace (b =? 0) with false by (symmetry; apply Z.eqb_neq; lia).
  replace (0 <? b) with true by (symmetry; apply Z.ltb_lt; lia).
  reflexivity.
Qed.

Ltac split_eqb :=
  repeat match goal with
         | |- context [String.eqb ?x ?y] => destruct (String.eqb x y)
         end.

Lemma double_pattern_count_six (a b c d e f : string) :
  double_pattern_count [a; b; c; d; e; f]
  = Ok (pair_hit a b + pair_hit c d + pair_hit e f).
Proof. cbv -[String.eqb]. split_eqb; reflexivity. Qed.

Lemma pair_hit_range (x y : string) : 0 <= pair_hit x y <= 1.
Proof. unfold pair_hit. destruct (_ && _); lia. Qed.

Lemma micro_alternations_first_six (l : list string) :
  (6 <= length l <= 8)%nat ->
  micro_alternations l = Ok (adjacent_diffs (firstn 6 l)).
Proof.
  intros Hl.
  destruct l as [|a [|b [|c [|d [|e [|f [|g [|h [|i l]]]]]]]]];
    simpl in Hl; try lia;
    cbv -[String.eqb]; split_eqb; reflexivity.
Qed.

Lemma adjacent_diffs_nonneg (l : list string) : 0 <= adjacent_diffs l.
Proof.
  induction l as [|a [|b t] IH]; simpl; try lia.
  simpl in IH. destruct (b =? a)%string; lia.
Qed.

Lemma last8_length (results : list string) :
  (length (last8_non_empate results) <= 8)%nat.
Proof.
  unfold last8_non_empate.
  destruct (Z.le_gt_cases 8 (len (non_empate results))) as [H|H].
  - rewrite slice_from_last_length by lia. lia.
  - rewrite slice_from_short by lia. unfold len in H. lia.
Qed.

Lemma length_slice_from {A : Type} (l : list A) (k : Z) :
  (length (slice_from l k) <= length l)%nat.
Proof. unfold slice_from. rewrite length_skipn. lia. Qed.

Lemma length_non_empate (results : list string) :
  (length (non_empate results) <= length results)%nat.
Proof. apply filter_length_le. Qed.

Lemma last8_le_results (results : list string) :
  len (last8_non_empate results) <= len results.
Proof.
  unfold last8_non_empate, len.
  pose proof (length_slice_from (non_empate results) (-8)).
  pose proof (length_non_empate results). lia.
Qed.

(** What the detector returns on a history of at least six outcomes. *)
Lemma analyze_micro_patterns_shape (results : list string) :
  6 <= len results ->
  exists dpc,
    double_pattern_count (slice_from results (-6)) = Ok dpc /\
    0 <= dpc <= 3 /\
    analyze_micro_patterns results
    = Ok ((if dpc >=? 2 then [micro_double_pattern dpc (dpc # 3)] else [])
          ++ (if len (last8_non_empate results) >=? 6 then
                let c := adjacent_diffs (firstn 6 (last8_non_empate results)) in
                if c >=? 4 then [micro_alternation c (c # 5)] else []
              else []))%list.
Proof.
  intros Hlen.
  destruct (length_six (slice_from results (-6))) as (a & b & c & d & e & f & E).
  { rewrite slice_from_last_length by lia. reflexivity. }
  exists (pair_hit a b + pair_hit c d + pair_hit e f).
  pose proof (pair_hit_range a b). pose proof (pair_hit_range c d).
  pose proof (pair_hit_range e f).
  rewrite E, double_pattern_count_six.
  split; [reflexivity | split; [lia|]].
  unfold analyze_micro_patterns.
  replace (len results <? 6) with false by (symmetry; apply Z.ltb_ge; lia).
  rewrite E, double_pattern_count_six. cbn [bind].
  set (dpc := pair_hit a b + pair_hit c d + pair_hit e f).
  fold (last8_non_empate results).
  assert (Hd : (if dpc >=? 2
                then s <- truediv dpc 3 ;; Ok [micro_double_pattern dpc s]
                else Ok [])
               = Ok (if dpc >=? 2 then [micro_double_pattern dpc (dpc # 3)] else [])).
  { destruct (dpc >=? 2); [|reflexivity].
    rewrite truediv_pos by lia. reflexivity. }
  rewrite Hd. cbn [bind].
  destruct (len (last8_non_empate results) >=? 6) eqn:E8.
  - rewrite micro_alternations_first_six.
    + cbn [bind]. cbv zeta.
      destruct (adjacent_diffs (firstn 6 (last8_non_empate results)) >=? 4).
      * rewrite truediv_pos by lia. reflexivity.
      * now rewrite app_nil_r.
    + pose proof (last8_length results). unfold len in E8. lia.
  - now rewrite app_nil_r.
Qed.

(** C1, amended: on every history whose up-to-8 most recent non-tie
    outcomes are at least six, the detector counts the adjacent pairs that
    differ among the FIRST six of them (five comparisons), and emits a
    micro_alternation with strength count/5, risk critical when the count
    is 5 and high otherwise, and predictability 90, exactly when the count
    is at least 4. *)
Theorem micro_alternation_counts_first_six (results : list string) :
  6 <= len (last8_non_empate results) ->
  let count := adjacent_diffs (firstn 6 (last8_non_empate results)) in
  exists patterns,
    analyze_micro_patterns results = Ok patterns /\
    (4 <= count ->
     exists p, In p patterns /\ type p = "micro_alternation" /\
               strength p = count # 5 /\
               risk p = (if count =? 5 then "critical" else "high") /\
               predictability p = Some 90%Q) /\
    (count < 4 -> forall p, In p patterns -> type p <> "micro_alternation").
Proof.
  intros H8 count.
  pose proof (last8_le_results results) as Hle.
  destruct (analyze_micro_patterns_shape results) as (dpc & _ & _ & E); [lia|].
  rewrite E. eexists. split; [reflexivity|].
  replace (len (last8_non_empate results) >=? 6) with true
    by (symmetry; apply Z.geb_le; lia).
  cbv zeta. fold count.
  split.
  - intros Hc.
    replace (count >=? 4) with true by (symmetry; apply Z.geb_le; lia).
    exists (micro_alternation count (count # 5)).
    split; [apply in_or_app; right; now left|].
    repeat split; reflexivity.
  - intros Hc p Hin.
    assert (Hf : (count >=? 4) = false)
      by (rewrite Z.geb_leb; apply Z.leb_gt; lia).
    rewrite Hf in Hin.
    rewrite app_nil_r in Hin.
    destruct (dpc >=? 2); [|contradiction].
    destruct Hin as [<-|[]]. discriminate.
Qed.

Lemma micro_alternation_counts_first_six_witness :
  exists patterns,
    analyze_micro_patterns early_alternation_history = Ok patterns /\
    exists p, In p patterns /\ strength p = 5 # 5.
Proof.
  destruct (micro_alternation_counts_first_six early_alternation_history)
    as (patterns & E & Hyes & _).
  - vm_compute. discriminate.
  - exists patterns. split; [exact E|].
    destruct Hyes as (p & Hin & _ & Hs & _).
    + vm_compute. discriminate.
    + exists p. split; [exact Hin | exact Hs].
Defined.

(** C1 as stated fails: among the LAST six of the eight most recent non-tie
    outcomes of C V C V C V V V only three adjacent pairs differ, yet the
    detector emits a micro_alternation (it counts the first six). *)
Lemma micro_alternation_not_last_six :
  ~ (emits analyze_micro_patterns early_alternation_history "micro_alternation"
     <-> 4 <= adjacent_diffs
               (slice_from (last8_non_empate early_alternation_history) (-6))).
Proof.
  intros [Himp _].
  assert (H : 4 <= adjacent_diffs
                     (slice_from (last8_non_empate early_alternation_history) (-6))).
  { apply Himp.
    exists [micro_alternation 5 (5 # 5)], (micro_alternation 5 (5 # 5)).
    repeat split; [now left]. }
  vm_compute in H. now apply H.
Qed.

(** C2, amended: the last six outcomes of the scenario history are
    C V V C V V, only the pair (V,V) is an equal non-tie pair, the count is
    1 and the detector emits nothing. *)
Theorem scenario_last_six_one_pair :
  slice_from scenario_history (-6) = ["C"; "V"; "V"; "C"; "V"; "V"] /\
  double_pattern_count (slice_from scenario_history (-6)) = Ok 1 /\
  analyze_micro_patterns scenario_history = Ok [].
Proof. repeat split; reflexivity. Qed.

(** C2 as stated fails: on the scenario history no micro_double_pattern
    is emitted. *)
Lemma scenario_no_double_pattern :
  ~ emits analyze_micro_patterns scenario_history "micro_double_pattern".
Proof.
  intros (patterns & p & E & Hin & _).
  change (analyze_micro_patterns scenario_history) with (@Ok (list Pattern) []) in E.
  injection E as <-. contradiction.
Qed.

(** ** Short histories *)

(** C7: a history of fewer than 6 outcomes yields no micro pattern, one of
    fewer than 12 non-tie outcomes no hidden cycle, one of fewer than 20
    non-tie outcomes no compensation pattern, one of fewer than 8 outcomes
    no strategic tie; each detector returns the empty list and raises
    nothing. *)
Theorem short_history_no_patterns (results : list string) :
  (len results < 6 -> analyze_micro_patterns results = Ok []) /\
  (len (non_empate results) < 12 -> detect_hidden_cycles results = Ok []) /\
  (len (non_empate results) < 20 ->
   analyze_compensation_patterns results = Ok []) /\
  (len results < 8 -> analyze_strategic_ties results = Ok []).
Proof.
  repeat split; intros H.
  - unfold analyze_micro_patterns.
    now replace (len results <? 6) with true by (symmetry; apply Z.ltb_lt; lia).
  - unfold detect_hidden_cycles.
    now replace (len (non_empate results) <? 12) with true
      by (symmetry; apply Z.ltb_lt; lia).
  - unfold analyze_compensation_patterns.
    now replace (len (non_empate results) <? 20) with true
      by (symmetry; apply Z.ltb_lt; lia).
  - unfold analyze_strategic_ties.
    now replace (len results <? 8) with true by (symmetry; apply Z.ltb_lt; lia).
Qed.

Lemma short_history_no_patterns_witness :
  analyze_micro_patterns ["C"; "E"; "V"; "V"; "E"] = Ok [] /\
  detect_hidden_cycles ["C"; "E"; "V"; "V"; "E"] = Ok [] /\
  analyze_compensation_patterns ["C"; "E"; "V"; "V"; "E"] = Ok [] /\
  analyze_strategic_ties ["C"; "E"; "V"; "V"; "E"] = Ok [].
Proof.
  destruct (short_history_no_patterns ["C"; "E"; "V"; "V"; "E"])
    as (Hm & Hh & Hc & Ht).
  split; [apply Hm | split; [apply Hh | split; [apply Hc | apply Ht]]];
    vm_compute; reflexivity.
Defined.

(** ** The scorers *)

Lemma risk_step_fst (acc : Z * list string) (p : Pattern) :
  fst acc <= fst (risk_step acc p).
Proof.
  destruct acc as [n fs]. unfold risk_step.
  repeat match goal with
         | |- context [if ?b then _ else _] => destruct b
         end; simpl; lia.
Qed.

Lemma manipulation_step_fst (acc : Z * list string) (p : Pattern) :
  fst acc <= fst (manipulation_step acc p).
Proof.
  destruct acc as [n fs]. unfold manipulation_step. cbv zeta.
  repeat match goal with
         | |- context [if ?b then _ else _] => destruct b
         end; simpl; lia.
Qed.

(** A loop whose body never lowers the running total does not lower it. *)
Lemma fold_left_fst_mono (step : Z * list string -> Pattern -> Z * list string)
      (patterns : list Pattern) :
  (forall acc p, fst acc <= fst (step acc p)) ->
  forall acc, fst acc <= fst (fold_left step patterns acc).
Proof.
  intros Hstep. induction patterns as [|p ps IH]; intros acc; simpl.
  - lia.
  - specialize (IH (step acc p)). specialize (Hstep acc p). lia.
Qed.

(** C8: for every pattern list the risk score and the manipulation score
    lie in [0,100]; on the empty pattern list both scorers return score 0,
    level low and no factors or signs. *)
Theorem scores_in_range (patterns : list Pattern) (risk : Assessment) :
  0 <= score (assess_risk patterns) <= 100 /\
  0 <= score (detect_manipulation patterns risk) <= 100 /\
  assess_risk [] = {| level := "low"; score := 0; factors := [] |} /\
  detect_manipulation [] risk = {| level := "low"; score := 0; factors := [] |}.
Proof.
  repeat split; try reflexivity.
  - unfold assess_risk.
    pose proof (fold_left_fst_mono risk_step patterns risk_step_fst (0, [])) as H.
    destruct (fold_left risk_step patterns (0, [])) as [n fs]. simpl in *. lia.
  - unfold assess_risk.
    destruct (fold_left risk_step patterns (0, [])) as [n fs]. simpl. lia.
  - unfold detect_manipulation.
    pose proof (fold_left_fst_mono manipulation_step patterns
                                   manipulation_step_fst (0, [])) as H.
    destruct (fold_left manipulation_step patterns (0, [])) as [n fs].
    simpl in *. lia.
  - unfold detect_manipulation.
    destruct (fold_left manipulation_step patterns (0, [])) as [n fs].
    simpl. lia.
Qed.

(** ** The predictor *)

(** C5: when the risk level or the manipulation level is critical the
    predictor returns no color, confidence 0 and the strategy
    PARAR COMPLETAMENTE, whatever the pattern list holds. *)
Theorem critical_level_stops (results : list string) (patterns : list Pattern)
        (risk manipulation : Assessment) :
  level risk = "critical" \/ level manipulation = "critical" ->
  make_prediction results patterns risk manipulation = Ok stop_prediction.
Proof.
  intros H. unfold make_prediction.
  replace ((level risk =? "critical")%string
           || (level manipulation =? "critical")%string) with true.
  - reflexivity.
  - symmetry. apply orb_true_iff.
    destruct H as [H|H]; [left|right]; now apply String.eqb_eq.
Qed.

Lemma critical_level_stops_witness :
  make_prediction (repeat "C" 20) tempting_patterns
                  {| level := "critical"; score := 100; factors := [] |}
                  {| level := "low"; score := 0; factors := [] |}
  = Ok stop_prediction /\
  make_prediction (repeat "C" 20) tempting_patterns
                  {| level := "low"; score := 0; factors := [] |}
                  {| level := "critical"; score := 80; factors := [] |}
  = Ok stop_prediction.
Proof.
  split; apply critical_level_stops; [left | right]; reflexivity.
Defined.

(** ** The compensation detector *)

Lemma Qlt_bool_iff (a b : Q) : Qlt_bool a b = true <-> (a < b)%Q.
Proof.
  unfold Qlt_bool. rewrite negb_true_iff. split.
  - intros H. apply Qnot_le_lt. intros Hle.
    apply Qle_bool_iff in Hle. congruence.
  - intros H. destruct (Qle_bool b a) eqn:E; [|reflexivity].
    apply Qle_bool_iff in E. exfalso. now apply (Qlt_not_le a b).
Qed.

(** One window emits at most one pattern, of the promised form. *)
Lemma compensation_window_spec (results : list string) (W : Z) :
  0 < W -> W <= len (non_empate results) ->
  exists ps,
    compensation_window (non_empate results) W = Ok ps /\
    (length ps <= 1)%nat /\
    Forall (window_pattern_ok results W) ps.
Proof.
  intros HW Hn. unfold compensation_window.
  replace (len (non_empate results) >=? W) with true
    by (symmetry; apply Z.geb_le; lia).
  cbv zeta. fold (c_count_of results W) (v_count_of results W).
  fold (imbalance_of results W).
  rewrite truediv_pos by lia. cbn [bind].
  set (ratio := imbalance_of results W # Z.to_pos W).
  destruct (Qlt_bool ratio (1 # 10)) eqn:Elow;
    destruct (Qlt_bool (4 # 10) ratio) eqn:Ehigh.
  - apply Qlt_bool_iff in Elow, Ehigh.
    pose proof (Qlt_trans _ _ _ Ehigh Elow) as Habs. discriminate Habs.
  - apply Qlt_bool_iff in Elow.
    destruct (W >=? 15) eqn:E15; simpl.
    + eexists. split; [reflexivity|]. split; [simpl; lia|].
      constructor; [|constructor].
      split; [reflexivity|]. left. repeat split; try assumption.
      apply Z.geb_le in E15. lia.
    + exists []. repeat split; [simpl; lia | constructor].
  - apply Qlt_bool_iff in Ehigh. simpl.
    eexists. split; [reflexivity|]. split; [simpl; lia|].
    constructor; [|constructor].
    split; [reflexivity|]. right. repeat split; try assumption.
    unfold compensation_pending. cbn [extra].
    assert (Hne : c_count_of results W <> v_count_of results W).
    { intros Heq. unfold ratio, imbalance_of in Ehigh.
      rewrite Heq, Z.sub_diag in Ehigh. discriminate Ehigh. }
    destruct (Z.ltb_spec (c_count_of results W) (v_count_of results W)).
    + left. split; [reflexivity | assumption].
    + right. split; [reflexivity | lia].
  - simpl. exists []. repeat split; [simpl; lia | constructor].
Qed.




(** What the detector returns, window by window, on a long history. *)
Lemma analyze_compensation_patterns_shape (results : list string) :
  20 <= len (non_empate results) ->
  exists ps12 ps15 ps18,
    analyze_compensation_patterns results = Ok (ps12 ++ ps15 ++ ps18)%list /\
    (length ps12 <= 1)%nat /\ Forall (window_pattern_ok results 12) ps12 /\
    (length ps15 <= 1)%nat /\ Forall (window_pattern_ok results 15) ps15 /\
    (length ps18 <= 1)%nat /\ Forall (window_pattern_ok results 18) ps18.
Proof.
  intros Hn.
  destruct (compensation_window_spec results 12) as (ps12 & E12 & L12 & F12);
    [lia | lia |].
  destruct (compensation_window_spec results 15) as (ps15 & E15 & L15 & F15);
    [lia | lia |].
  destruct (compensation_window_spec results 18) as (ps18 & E18 & L18 & F18);
    [lia | lia |].
  exists ps12, ps15, ps18. repeat split; try assumption.
  unfold analyze_compensation_patterns. cbv zeta.
  replace (len (non_empate results) <? 20) with false
    by (symmetry; apply Z.ltb_ge; lia).
  unfold windows. cbn [for_append]. rewrite E12, E15, E18. cbn [bind].
  now rewrite app_nil_r.
Qed.



(** ** Cycle continuation *)

Lemma get_in_bounds (s : string) (n : nat) :
  (n < String.length s)%nat -> exists c, String.get n s = Some c.
Proof.
  revert n. induction s as [|a s IH]; intros n Hn; simpl in Hn; [lia|].
  destruct n as [|n]; simpl.
  - now exists a.
  - apply IH. lia.
Qed.

Lemma char_at_ok (s : string) (i : Z) :
  0 <= i < str_len s ->
  exists c, char_at s i = Ok (String c EmptyString).
Proof.
  intros Hi. unfold char_at, str_len in *.
  replace (i <? 0) with false by (symmetry; apply Z.ltb_ge; lia).
  destruct (get_in_bounds s (Z.to_nat i)) as [c E]; [lia|].
  exists c. now rewrite E.
Qed.

Lemma range_bounds (lo hi : Z) : Forall (fun i => lo <= i < hi) (range lo hi).
Proof.
  unfold range. apply Forall_forall. intros i Hin.
  apply in_map_iff in Hin. destruct Hin as (k & <- & Hk).
  apply in_seq in Hk. lia.
Qed.

(** The comparison loop ends normally whether or not it meets a mismatch. *)
Lemma cycle_scan_ok (pattern : string) (non_empate : list string)
      (todo : list Z) :
  0 < str_len pattern ->
  Forall (fun i => 0 <= i < len non_empate) todo ->
  cycle_scan pattern non_empate (str_len pattern) todo = Ok tt.
Proof.
  intros HL. induction 1 as [|i todo Hi _ IH]; [reflexivity|].
  simpl.
  destruct (char_at_ok pattern (i mod str_len pattern)) as [c Ec].
  { apply Z.mod_pos_bound. lia. }
  destruct (index_ok non_empate i) as [x Ex]; [lia|].
  rewrite Ec, Ex. cbn [bind].
  destruct (negb _); [reflexivity | exact IH].
Qed.

Lemma str_len_pos (s : string) : s <> EmptyString -> 0 < str_len s.
Proof. destruct s; [congruence|]. unfold str_len. simpl. lia. Qed.

Lemma len_pos {A : Type} (l : list A) : l <> [] -> 0 < len l.
Proof. destruct l; [congruence|]. unfold len. simpl. lia. Qed.

Lemma eqb_empty_false (s : string) :
  s <> EmptyString -> (s =? EmptyString)%string = false.
Proof. intros H. now apply String.eqb_neq. Qed.

(** The next symbol of a non-empty cycle on a history with a non-tie
    outcome is the character of the cycle at [len(non_empate) % L]. *)
Lemma predict_next_in_cycle_spec (results : list string) (pattern : string) :
  pattern <> EmptyString -> non_empate results <> [] ->
  exists c,
    char_at pattern (len (non_empate results) mod str_len pattern)
    = Ok (String c EmptyString) /\
    predict_next_in_cycle results pattern = Ok (Some (String c EmptyString)).
Proof.
  intros Hp Hne.
  pose proof (str_len_pos pattern Hp) as HL.
  pose proof (len_pos _ Hne) as Hn.
  pose proof (Z.mod_pos_bound (len (non_empate results)) (str_len pattern) HL)
    as Hpos.
  destruct (char_at_ok pattern _ Hpos) as [c Ec].
  exists c. split; [exact Ec|].
  unfold predict_next_in_cycle. cbv zeta.
  rewrite (eqb_empty_false pattern Hp).
  replace (len (non_empate results) =? 0) with false
    by (symmetry; apply Z.eqb_neq; lia).
  cbn [orb].
  rewrite cycle_scan_ok by (assumption || apply range_bounds).
  cbn [bind].
  replace (len (non_empate results) mod str_len pattern <? str_len pattern)
    with true by (symmetry; apply Z.ltb_lt; lia).
  now rewrite Ec.
Qed.

(** C4: for a non-empty cycle string of length L and a history with a
    non-tie outcome, the comparison loop never aborts, the predicted next
    symbol is pattern[len(non_empate) mod L], and whenever the predictor
    reaches its cycle branch (levels both low, no pending compensation, a
    hidden_cycle of repetitions >= 2 carrying that string) it returns the
    SEGUIR CICLO prediction of that symbol with confidence
    min(70, 50 + 5*repetitions). *)
Theorem cycle_continuation (results : list string) (pattern : string) :
  pattern <> EmptyString -> non_empate results <> [] ->
  cycle_scan pattern (non_empate results) (str_len pattern)
             (range 0 (len (non_empate results))) = Ok tt /\
  exists next,
    char_at pattern (len (non_empate results) mod str_len pattern) = Ok next /\
    predict_next_in_cycle results pattern = Ok (Some next) /\
    forall patterns risk manipulation cycle_pattern cycle_size repetitions,
      level risk = "low" -> level manipulation = "low" ->
      find is_compensation_pending patterns = None ->
      find is_repeated_cycle patterns = Some cycle_pattern ->
      extra cycle_pattern = CyclePayload cycle_size pattern repetitions ->
      2 <= repetitions /\
      make_prediction results patterns risk manipulation
      = Ok (cycle_prediction next pattern repetitions).
Proof.
  intros Hp Hne. split.
  { apply cycle_scan_ok; [now apply str_len_pos | apply range_bounds]. }
  destruct (predict_next_in_cycle_spec results pattern Hp Hne) as (c & Ec & En).
  exists (String c EmptyString). split; [exact Ec | split; [exact En|]].
  intros patterns risk manipulation cp cycle_size repetitions
         Hr Hm Hcomp Hcyc Hextra.
  split.
  - apply find_some in Hcyc. destruct Hcyc as [_ Hrep].
    unfold is_repeated_cycle, get_repetitions in Hrep. rewrite Hextra in Hrep.
    apply andb_true_iff in Hrep. destruct Hrep as [_ Hrep].
    apply Z.geb_le in Hrep. lia.
  - unfold make_prediction. rewrite Hr, Hm, Hcomp. cbn [String.eqb orb].
    change (("low" =? "critical")%string) with false.
    change (("low" =? "high")%string) with false. cbn [orb].
    unfold follow_cycle, both_low. rewrite Hcyc, Hr, Hm.
    change (("low" =? "low")%string) with true. cbn [andb].
    unfold item_pattern, item_repetitions. rewrite Hextra. cbn [bind].
    rewrite En. reflexivity.
Qed.

Lemma cycle_continuation_witness :
  make_prediction ["C"; "V"; "E"; "C"; "C"] [hidden_cycle 3 "CVV" 2 (2 # 3)]
                  low_assessment low_assessment
  = Ok (cycle_prediction "V" "CVV" 2).
Proof.
  destruct (cycle_continuation ["C"; "V"; "E"; "C"; "C"] "CVV")
    as (_ & next & Ec & _ & H).
  - discriminate.
  - discriminate.
  - injection Ec as <-.
    apply (H [hidden_cycle 3 "CVV" 2 (2 # 3)] low_assessment low_assessment
             (hidden_cycle 3 "CVV" 2 (2 # 3)) 3 2); reflexivity.
Defined.

(** ** Counting *)

Lemma counter_add_nonempty (k : string) (c : list (string * Z)) :
  counter_add k c <> [].
Proof. destruct c as [|[k' n] c]; simpl; [|destruct (k =? k')%string]; discriminate. Qed.

Lemma fold_counter_nonempty (l : list string) (c : list (string * Z)) :
  c <> [] -> fold_left (fun c k => counter_add k c) l c <> [].
Proof.
  revert c. induction l as [|k l IH]; intros c Hc; simpl; [exact Hc|].
  apply IH, counter_add_nonempty.
Qed.

Lemma Counter_nonempty (l : list string) : l <> [] -> Counter l <> [].
Proof.
  destruct l as [|k l]; [congruence|]. intros _. unfold Counter. simpl.
  apply fold_counter_nonempty. discriminate.
Qed.

Lemma lookup_counter_add (k k' : string) (c : list (string * Z)) :
  lookup k (counter_add k' c)
  = lookup k c + (if (k' =? k)%string then 1 else 0).
Proof.
  unfold lookup. induction c as [|[k0 n] c IH]; simpl.
  - destruct (k' =? k)%string; reflexivity.
  - destruct (String.eqb_spec k' k0) as [->|Hne]; simpl.
    + destruct (k0 =? k)%string; simpl; lia.
    + destruct (String.eqb_spec k0 k) as [->|Hne0]; simpl.
      * replace (k' =? k)%string with false
          by (symmetry; now apply String.eqb_neq). lia.
      * exact IH.
Qed.

Lemma count_cons (x k : string) (l : list string) :
  count (x :: l) k = count l k + (if (x =? k)%string then 1 else 0).
Proof.
  unfold count, len. simpl. destruct (x =? k)%string; simpl length; lia.
Qed.

Lemma lookup_fold_counter (k : string) (l : list string) (c : list (string * Z)) :
  lookup k (fold_left (fun c k => counter_add k c) l c) = lookup k c + count l k.
Proof.
  revert c. induction l as [|x l IH]; intros c; simpl.
  - unfold count, len. simpl. lia.
  - rewrite IH, lookup_counter_add, count_cons. lia.
Qed.

(** A [Counter] holds for each key the number of its occurrences. *)
Lemma lookup_Counter (k : string) (l : list string) :
  lookup k (Counter l) = count l k.
Proof. unfold Counter. rewrite lookup_fold_counter. reflexivity. Qed.

Lemma counter_add_keys (k : string) (c : list (string * Z)) :
  NoDup (map fst c) -> NoDup (map fst (counter_add k c)).
Proof.
  induction c as [|[k0 n] c IH]; simpl; intros Hnd.
  - constructor; [intros [] | constructor].
  - destruct (String.eqb_spec k k0) as [->|Hne]; simpl; [exact Hnd|].
    inversion Hnd as [|? ? Hnotin Hnd']; subst.
    constructor; [|now apply IH].
    intros Hin. apply Hnotin.
    clear - Hin Hne. induction c as [|[k1 m] c IH]; simpl in *.
    + destruct Hin as [E|[]]. congruence.
    + destruct (String.eqb_spec k k1) as [->|Hne1]; simpl in Hin.
      * exact Hin.
      * destruct Hin as [E|Hin]; [now left | right; now apply IH].
Qed.

Lemma Counter_keys (l : list string) : NoDup (map fst (Counter l)).
Proof.
  unfold Counter.
  assert (H : forall c, NoDup (map fst c) ->
                        NoDup (map fst (fold_left (fun c k => counter_add k c) l c))).
  { induction l as [|x l IH]; intros c Hc; simpl; [exact Hc|].
    apply IH, counter_add_keys, Hc. }
  apply H. constructor.
Qed.

Lemma lookup_item (k : string) (n : Z) (c : list (string * Z)) :
  NoDup (map fst c) -> In (k, n) c -> lookup k c = n.
Proof.
  unfold lookup. induction c as [|[k0 m] c IH]; simpl; intros Hnd Hin; [easy|].
  inversion Hnd as [|? ? Hnotin Hnd']; subst.
  destruct Hin as [E|Hin].
  - injection E as -> ->. now rewrite String.eqb_refl.
  - destruct (String.eqb_spec k0 k) as [->|Hne]; simpl.
    + exfalso. apply Hnotin. change k with (fst (k, n)). now apply in_map.
    + now apply IH.
Qed.

Lemma lookup_positive (k : string) (c : list (string * Z)) :
  lookup k c <> 0 -> In (k, lookup k c) c.
Proof.
  unfold lookup. intros H.
  destruct (find (fun kv => (fst kv =? k)%string) c) as [[k0 n]|] eqn:E;
    [|congruence].
  apply find_some in E. destruct E as [Hin Hk]. simpl in Hk.
  apply String.eqb_eq in Hk. subst k0. exact Hin.
Qed.

(** [max] returns an element of the sequence, of greatest key. *)
Lemma max_from_spec {A : Type} (key : A -> Z) (l : list A) (best : A) :
  (max_from key best l = best \/ In (max_from key best l) l) /\
  key best <= key (max_from key best l) /\
  forall x, In x l -> key x <= key (max_from key best l).
Proof.
  revert best. induction l as [|y l IH]; intros best; simpl.
  - repeat split; [now left | lia | intros x []].
  - destruct (IH (if key best <? key y then y else best)) as (Hin & Hb & Hall).
    destruct (Z.ltb_spec (key best) (key y)).
    + repeat split.
      * right. destruct Hin as [->|Hin]; [now left | now right].
      * lia.
      * intros x [<-|Hx]; [exact Hb | now apply Hall].
    + repeat split.
      * destruct Hin as [->|Hin]; [now left | right; now right].
      * exact Hb.
      * intros x [<-|Hx]; [lia | now apply Hall].
Qed.

Lemma max_by_spec {A : Type} (key : A -> Z) (l : list A) :
  l <> [] ->
  exists best, max_by key l = Ok best /\ In best l /\
               forall x, In x l -> key x <= key best.
Proof.
  destruct l as [|y l]; [congruence|]. intros _.
  destruct (max_from_spec key l y) as (Hin & Hb & Hall).
  exists (max_from key y l). simpl. repeat split.
  - destruct Hin as [->|Hin]; [now left | now right].
  - intros x [<-|Hx]; [exact Hb | now apply Hall].
Qed.

Lemma count_nonneg (l : list string) (k : string) : 0 <= count l k.
Proof. unfold count. apply len_nonneg. Qed.

(** The dominant item of a history with a non-tie outcome: its color
    occurs [count] times among the non-tie outcomes, and no outcome occurs
    more often. *)
Lemma dominant_spec (results : list string) :
  non_empate results <> [] ->
  exists color n,
    dominant results = Ok (color, n) /\
    n = count (non_empate results) color /\
    0 < n <= len (non_empate results) /\
    forall x, count (non_empate results) x <= n.
Proof.
  intros Hne. unfold dominant, most_common_1.
  destruct (max_by_spec snd (Counter (non_empate results)))
    as ([color n] & E & Hin & Hmax).
  { now apply Counter_nonempty. }
  rewrite E. exists color, n. split; [reflexivity|].
  pose proof (lookup_item color n _ (Counter_keys _) Hin) as Hl.
  rewrite lookup_Counter in Hl.
  assert (Hall : forall x, count (non_empate results) x <= n).
  { intros x. rewrite <- lookup_Counter.
    destruct (Z.eq_dec (lookup x (Counter (non_empate results))) 0) as [E0|E0].
    - rewrite E0, <- Hl. apply count_nonneg.
    - apply (Hmax (x, lookup x (Counter (non_empate results)))).
      now apply lookup_positive. }
  split; [congruence|]. split; [|exact Hall].
  split.
  - destruct (non_empate results) as [|y l] eqn:El; [congruence|].
    specialize (Hall y). rewrite count_cons, String.eqb_refl in Hall.
    pose proof (count_nonneg l y). lia.
  - subst n. unfold count, len.
    pose proof (filter_length_le (fun r => (r =? color)%string)
                                 (non_empate results)). lia.
Qed.

(** ** The last branch of the predictor *)

Lemma bet_on_dominant_spec (results : list string) :
  non_empate results <> [] ->
  exists color n,
    dominant results = Ok (color, n) /\
    bet_on_dominant results
    = Ok (dominant_prediction color n (len (non_empate results))).
Proof.
  intros Hne.
  destruct (dominant_spec results Hne) as (color & n & E & _).
  exists color, n. split; [exact E|].
  unfold bet_on_dominant. cbv zeta. unfold dominant in E.
  destruct (non_empate results) as [|y l] eqn:El; [congruence|].
  rewrite E. cbn [bind].
  rewrite truediv_pos by (apply len_pos; discriminate).
  reflexivity.
Qed.

Lemma min_Q_cases (a b : Q) :
  ((b < a)%Q /\ min_Q a b = b) \/ ((a <= b)%Q /\ min_Q a b = a).
Proof.
  unfold min_Q. destruct (Qlt_bool b a) eqn:E.
  - left. split; [now apply Qlt_bool_iff | reflexivity].
  - right. split; [|reflexivity].
    apply Qnot_lt_le. intros H. apply Qlt_bool_iff in H. congruence.
Qed.

(** C3, amended: in the last branch the confidence is
    min(100 * share, 75) for the dominant share of the non-tie outcomes;
    it never decreases when the share grows.  A strict increase is not
    promised: from a share of 3/4 on the cap at 75 makes the confidences
    equal, and below the cap the code holds the nearest double of the
    value, which two close shares can have in common. *)
Theorem fallback_confidence_monotone (h1 h2 : list string) :
  non_empate h1 <> [] -> non_empate h2 <> [] ->
  (dominant_share h1 < dominant_share h2)%Q ->
  exists p1 p2,
    bet_on_dominant h1 = Ok p1 /\ bet_on_dominant h2 = Ok p2 /\
    confidence p1 = min_Q (dominant_share h1 * 100) 75 /\
    confidence p2 = min_Q (dominant_share h2 * 100) 75 /\
    (confidence p1 <= confidence p2)%Q.
Proof.
  intros H1 H2 Hlt.
  destruct (bet_on_dominant_spec h1 H1) as (c1 & n1 & D1 & E1).
  destruct (bet_on_dominant_spec h2 H2) as (c2 & n2 & D2 & E2).
  unfold dominant_share in *. rewrite D1, D2 in *.
  do 2 eexists. split; [exact E1 | split; [exact E2|]].
  cbn [confidence dominant_prediction].
  split; [reflexivity | split; [reflexivity|]].
  set (s1 := n1 # Z.to_pos (len (non_empate h1))) in *.
  set (s2 := n2 # Z.to_pos (len (non_empate h2))) in *.
  destruct (min_Q_cases (s1 * 100) 75) as [[Ha ->]|[Ha ->]];
    destruct (min_Q_cases (s2 * 100) 75) as [[Hb ->]|[Hb ->]]; lra.
Qed.

Lemma fallback_confidence_monotone_witness :
  exists p1 p2,
    bet_on_dominant ["C"; "V"; "E"; "C"] = Ok p1 /\
    bet_on_dominant mostly_C = Ok p2 /\
    (confidence p1 <= confidence p2)%Q.
Proof.
  destruct (fallback_confidence_monotone ["C"; "V"; "E"; "C"] mostly_C)
    as (p1 & p2 & E1 & E2 & _ & _ & Hle).
  - discriminate.
  - discriminate.
  - reflexivity.
  - exists p1, p2. split; [exact E1 | split; [exact E2 | exact Hle]].
Defined.

(** C3 as stated fails: C C C C V and C C C C C both reach the last branch,
    the dominant share grows from 4/5 to 5/5, and the confidence is 75 for
    both. *)
Lemma fallback_confidence_not_strict :
  exists r1 r2,
    analyze mostly_C = Ok r1 /\ analyze only_C = Ok r2 /\
    strategy (prediction r1) = "APOSTAR NA PRINCIPAL COR" /\
    strategy (prediction r2) = "APOSTAR NA PRINCIPAL COR" /\
    bet_on_dominant mostly_C = Ok (prediction r1) /\
    bet_on_dominant only_C = Ok (prediction r2) /\
    (dominant_share mostly_C < dominant_share only_C)%Q /\
    ~ (confidence (prediction r1) < confidence (prediction r2))%Q.
Proof.
  do 2 eexists.
  split; [vm_compute; reflexivity|].
  split; [vm_compute; reflexivity|].
  cbn [prediction strategy].
  repeat split.
  intros H. vm_compute in H. discriminate H.
Qed.

(** ** No detector raises *)

Lemma and_then_ok (a b : res bool) :
  (exists x, a = Ok x) -> (a = Ok true -> exists y, b = Ok y) ->
  exists z, a &&& b = Ok z.
Proof.
  intros [x ->] Hb. unfold and_then. cbn [bind].
  destruct x; [now apply Hb | now exists false].
Qed.

Lemma and_then_true (a b : res bool) :
  a &&& b = Ok true -> a = Ok true /\ b = Ok true.
Proof.
  unfold and_then. destruct a as [[|]|e]; cbn [bind]; intros H;
    (discriminate H || now split).
Qed.

Lemma for_append_ok {A B : Type} (P : B -> Prop) (body : A -> res (list B))
      (l : list A) :
  (forall x, In x l -> exists ps, body x = Ok ps /\ Forall P ps) ->
  exists ps, for_append body l = Ok ps /\ Forall P ps.
Proof.
  induction l as [|x l IH]; intros H; simpl.
  - exists []. split; [reflexivity | constructor].
  - destruct (H x) as (ps & E & F); [now left|].
    destruct IH as (qs & E' & F'); [intros y Hy; apply H; now right|].
    rewrite E, E'. cbn [bind]. exists (ps ++ qs)%list.
    split; [reflexivity | now apply Forall_app].
Qed.

Lemma analyze_micro_patterns_ok (results : list string) :
  exists ps, analyze_micro_patterns results = Ok ps /\ Forall well_keyed ps.
Proof.
  destruct (Z.lt_ge_cases (len results) 6) as [H|H].
  - exists []. split; [|constructor]. unfold analyze_micro_patterns.
    now replace (len results <? 6) with true by (symmetry; apply Z.ltb_lt; lia).
  - destruct (analyze_micro_patterns_shape results) as (dpc & _ & _ & E); [lia|].
    rewrite E. eexists. split; [reflexivity|].
    apply Forall_app. split.
    + destruct (dpc >=? 2); repeat constructor. intros Ht. discriminate Ht.
    + destruct (len (last8_non_empate results) >=? 6); [|constructor].
      cbv zeta. destruct (_ >=? 4); repeat constructor.
      intros Ht. discriminate Ht.
Qed.

Lemma hidden_cycles_of_size_ok (non_empate : list string) (cycle_size : Z) :
  exists ps, hidden_cycles_of_size non_empate cycle_size = Ok ps /\
             Forall well_keyed ps.
Proof.
  unfold hidden_cycles_of_size. cbv zeta.
  destruct (repeated_of (Counter (cycles_of non_empate cycle_size)))
    as [|item rest].
  - exists []. split; [reflexivity | constructor].
  - cbn [max_by bind].
    destruct (max_from snd item rest) as [most_repeated count].
    rewrite truediv_pos by lia. cbn [bind].
    eexists. split; [reflexivity|].
    repeat constructor. intros Ht. discriminate Ht.
Qed.

Lemma detect_hidden_cycles_ok (results : list string) :
  exists ps, detect_hidden_cycles results = Ok ps /\ Forall well_keyed ps.
Proof.
  unfold detect_hidden_cycles. cbv zeta.
  destruct (len (non_empate results) <? 12).
  - exists []. split; [reflexivity | constructor].
  - apply for_append_ok. intros sz _. apply hidden_cycles_of_size_ok.
Qed.

Lemma window_pattern_well_keyed (results : list string) (W : Z) (p : Pattern) :
  window_pattern_ok results W p -> well_keyed p.
Proof.
  intros (_ & [(Ht & _)|(_ & _ & _ & [(He & _)|(He & _)])]) Hc.
  - rewrite Ht in Hc. discriminate Hc.
  - do 3 eexists. exact He.
  - do 3 eexists. exact He.
Qed.

Lemma analyze_compensation_patterns_ok (results : list string) :
  exists ps, analyze_compensation_patterns results = Ok ps /\
             Forall well_keyed ps.
Proof.
  destruct (Z.lt_ge_cases (len (non_empate results)) 20) as [Hn|Hn].
  - exists []. split; [|constructor].
    unfold analyze_compensation_patterns. cbv zeta.
    now replace (len (non_empate results) <? 20) with true
      by (symmetry; apply Z.ltb_lt; lia).
  - destruct (analyze_compensation_patterns_shape results Hn)
      as (ps12 & ps15 & ps18 & E & _ & F12 & _ & F15 & _ & F18).
    eexists. split; [exact E|].
    repeat (apply Forall_app; split);
      eapply Forall_impl; try eassumption;
      intros p; apply window_pattern_well_keyed.
Qed.

Lemma sequence_scan_ok (seq : list string) (color : string) (todo : list Z) :
  Forall (fun i => 0 <= i < len seq) todo ->
  forall length, exists n, sequence_scan seq color todo length = Ok n.
Proof.
  induction 1 as [|i todo Hi _ IH]; intros length; simpl.
  - now exists length.
  - destruct (index_ok seq i) as [x Ex]; [lia|].
    rewrite Ex. cbn [bind].
    destruct (x =? color)%string; [apply IH | now exists length].
Qed.

Lemma get_sequence_length_ok (seq : list string) :
  exists n, get_sequence_length seq = Ok n.
Proof.
  unfold get_sequence_length. destruct seq as [|y seq]; [now exists 0|].
  destruct (index_ok (y :: seq) (-1)) as [color Ec].
  { rewrite len_cons. pose proof (len_nonneg seq). lia. }
  rewrite Ec. cbn [bind]. apply sequence_scan_ok.
  apply Forall_rev. eapply Forall_impl; [|apply range_bounds].
  intros i Hi. cbv beta in Hi. lia.
Qed.

Lemma geb_true (a b : Z) : (a >=? b) = true -> b <= a.
Proof. intros H. apply Z.geb_le in H. lia. Qed.

Lemma strategic_ties_at_ok (results : list string) (tie_pos : Z) :
  exists ps, strategic_ties_at results tie_pos = Ok ps /\ Forall well_keyed ps.
Proof.
  unfold strategic_ties_at.
  destruct (tie_pos >=? 3); [|exists []; split; [reflexivity | constructor]].
  cbv zeta.
  set (before := slice results (Z.max 0 (tie_pos - 3)) tie_pos).
  set (after := slice results (tie_pos + 1) (tie_pos + 4)).
  pose proof (len_nonneg before) as Hb0.
  pose proof (len_nonneg after) as Ha0.
  assert (Hlast : 1 <= len before -> exists x, index before (-1) = Ok x)
    by (intros; apply index_ok; lia).
  assert (Hprev : 2 <= len before -> exists x, index before (-2) = Ok x)
    by (intros; apply index_ok; lia).
  assert (Hfirst : 1 <= len after -> exists x, index after 0 = Ok x)
    by (intros; apply index_ok; lia).
  (* the first test *)
  match goal with
  | |- context [bind (?t &&& ?u &&& ?v) _] =>
      assert (H1 : exists c1, t &&& u &&& v = Ok c1)
  end.
  { apply and_then_ok; [apply and_then_ok; [now eexists|] |].
    - intros E. injection E as E. apply geb_true in E.
      destruct Hlast as [x ->]; [lia|]. destruct Hprev as [y ->]; [lia|].
      cbn [bind]. now eexists.
    - intros E. apply and_then_true in E. destruct E as [E _].
      injection E as E. apply geb_true in E.
      destruct Hlast as [x ->]; [lia|]. cbn [bind]. now eexists. }
  destruct H1 as [c1 E1]. rewrite E1. cbn [bind].
  assert (H1 : exists first,
             (if c1
              then sequence_color <- index before (-1) ;;
                   sequence_length <- get_sequence_length before ;;
                   Ok [strategic_tie_after_sequence tie_pos sequence_color
                         sequence_length]
              else Ok []) = Ok first /\ Forall well_keyed first).
  { destruct c1; [|exists []; split; [reflexivity | constructor]].
    apply and_then_true in E1. destruct E1 as [E1 _].
    apply and_then_true in E1. destruct E1 as [E1 _].
    injection E1 as E1. apply geb_true in E1.
    destruct Hlast as [x ->]; [lia|].
    destruct (get_sequence_length_ok before) as [n ->]. cbn [bind].
    eexists. split; [reflexivity|].
    repeat constructor. intros Ht. discriminate Ht. }
  destruct H1 as (first & -> & Ffirst). cbn [bind].
  (* the second test *)
  match goal with
  | |- context [bind (?t &&& ?u &&& ?v &&& ?w) _] =>
      assert (H2 : exists c2, t &&& u &&& v &&& w = Ok c2)
  end.
  { apply and_then_ok; [apply and_then_ok; [apply and_then_ok; [now eexists|] |] |].
    - intros _. now eexists.
    - intros E. apply and_then_true in E. destruct E as [_ E].
      injection E as E. apply geb_true in E.
      destruct Hlast as [x ->]; [lia|]. cbn [bind]. now eexists.
    - intros E. apply and_then_true in E. destruct E as [E _].
      apply and_then_true in E. destruct E as [E _].
      injection E as E. apply geb_true in E.
      destruct Hfirst as [x ->]; [lia|]. cbn [bind]. now eexists. }
  destruct H2 as [c2 E2]. rewrite E2. cbn [bind].
  assert (H2 : exists second,
             (if c2
              then before_color <- index before (-1) ;;
                   after_color <- index after 0 ;;
                   if negb (before_color =? after_color)%string
                   then Ok [strategic_tie_before_reversal tie_pos before_color
                              after_color]
                   else Ok []
              else Ok []) = Ok second /\ Forall well_keyed second).
  { destruct c2; [|exists []; split; [reflexivity | constructor]].
    apply and_then_true in E2. destruct E2 as [E2 _].
    apply and_then_true in E2. destruct E2 as [E2 _].
    apply and_then_true in E2. destruct E2 as [Ea Eb].
    injection Ea as Ea. apply geb_true in Ea.
    injection Eb as Eb. apply geb_true in Eb.
    destruct Hlast as [x ->]; [lia|]. destruct Hfirst as [y ->]; [lia|].
    cbn [bind]. destruct (negb _).
    - eexists. split; [reflexivity|].
      repeat constructor. intros Ht. discriminate Ht.
    - exists []. split; [reflexivity | constructor]. }
  destruct H2 as (second & -> & Fsecond). cbn [bind].
  eexists. split; [reflexivity | now apply Forall_app].
Qed.

Lemma analyze_strategic_ties_ok (results : list string) :
  exists ps, analyze_strategic_ties results = Ok ps /\ Forall well_keyed ps.
Proof.
  unfold analyze_strategic_ties. destruct (len results <? 8).
  - exists []. split; [reflexivity | constructor].
  - apply for_append_ok. intros tie_pos _. apply strategic_ties_at_ok.
Qed.

(** ** The predictor raises nothing on well-keyed patterns *)

Lemma predict_next_in_cycle_ok (results : list string) (pattern : string) :
  exists next_color, predict_next_in_cycle results pattern = Ok next_color.
Proof.
  destruct (string_dec pattern EmptyString) as [->|Hp].
  - now exists None.
  - destruct (non_empate results) as [|y l] eqn:El.
    + exists None. unfold predict_next_in_cycle. cbv zeta. rewrite El.
      now rewrite orb_true_r.
    + destruct (predict_next_in_cycle_spec results pattern Hp) as (c & _ & E).
      * rewrite El. discriminate.
      * eexists. exact E.
Qed.

Lemma bet_on_dominant_ok (results : list string) :
  exists p, bet_on_dominant results = Ok p.
Proof.
  destruct (non_empate results) as [|y l] eqn:El.
  - exists default_prediction. unfold bet_on_dominant. cbv zeta. now rewrite El.
  - destruct (bet_on_dominant_spec results) as (color & n & _ & E).
    + rewrite El. discriminate.
    + eexists. exact E.
Qed.

Lemma follow_cycle_ok (results : list string) (patterns : list Pattern)
      (risk manipulation : Assessment) :
  exists p, follow_cycle results patterns risk manipulation = Ok p.
Proof.
  unfold follow_cycle.
  destruct (find is_repeated_cycle patterns) as [cp|] eqn:Ef;
    [|apply bet_on_dominant_ok].
  destruct (both_low risk manipulation); [|apply bet_on_dominant_ok].
  apply find_some in Ef. destruct Ef as [_ Hrep].
  unfold is_repeated_cycle, get_repetitions in Hrep.
  apply andb_true_iff in Hrep. destruct Hrep as [_ Hrep].
  unfold item_pattern, item_repetitions.
  destruct (extra cp) as [|cycle_size pattern repetitions| | | |];
    try discriminate Hrep.
  cbn [bind].
  destruct (predict_next_in_cycle_ok results pattern) as [next ->].
  cbn [bind]. destruct (truthy next); [now eexists | apply bet_on_dominant_ok].
Qed.

Lemma make_prediction_ok (results : list string) (patterns : list Pattern)
      (risk manipulation : Assessment) :
  Forall well_keyed patterns ->
  exists p, make_prediction results patterns risk manipulation = Ok p.
Proof.
  intros Hwk. unfold make_prediction.
  destruct (_ || _); [now eexists|].
  destruct (level manipulation =? "high")%string; [now eexists|].
  destruct (find is_compensation_pending patterns) as [cp|] eqn:Ef;
    [|apply follow_cycle_ok].
  destruct (both_low risk manipulation); [|apply follow_cycle_ok].
  apply find_some in Ef. destruct Ef as [Hin Hty].
  rewrite Forall_forall in Hwk.
  destruct (Hwk cp Hin) as (w & i & c & He).
  { now apply String.eqb_eq. }
  unfold item_favored_color. rewrite He. cbn [bind]. now eexists.
Qed.

(** ** The pipeline *)

(** Every detector returns, the predictor returns, and the result holds
    the concatenated patterns and the two assessments of them. *)
Lemma analyze_shape (history : list string) :
  exists micro hidden compensation ties pred,
    analyze_micro_patterns history = Ok micro /\
    detect_hidden_cycles history = Ok hidden /\
    analyze_compensation_patterns history = Ok compensation /\
    analyze_strategic_ties history = Ok ties /\
    let ps := (micro ++ hidden ++ compensation ++ ties)%list in
    make_prediction history ps (assess_risk ps)
                    (detect_manipulation ps (assess_risk ps)) = Ok pred /\
    analyze history
    = Ok {| patterns := ps;
            risk_result := assess_risk ps;
            manipulation_result := detect_manipulation ps (assess_risk ps);
            prediction := pred |}.
Proof.
  destruct (analyze_micro_patterns_ok history) as (micro & Em & Fm).
  destruct (detect_hidden_cycles_ok history) as (hidden & Eh & Fh).
  destruct (analyze_compensation_patterns_ok history) as (comp & Ec & Fc).
  destruct (analyze_strategic_ties_ok history) as (ties & Et & Ft).
  destruct (make_prediction_ok history (micro ++ hidden ++ comp ++ ties)
              (assess_risk (micro ++ hidden ++ comp ++ ties))
              (detect_manipulation (micro ++ hidden ++ comp ++ ties)
                 (assess_risk (micro ++ hidden ++ comp ++ ties))))
    as (pred & Ep).
  { repeat (apply Forall_app; split); assumption. }
  exists micro, hidden, comp, ties, pred.
  repeat (split; [assumption|]).
  unfold analyze. rewrite Em, Eh, Ec, Et. cbn [bind]. rewrite Ep. reflexivity.
Qed.

(** C9, amended: on every sequence of strings, whether or not its values
    lie in the alphabet C, V, E, analyze returns a full result structure:
    the patterns, the two assessments with scores in [0,100] and a
    prediction.  It signals no error; a value outside the alphabet is
    analyzed as a non-tie outcome. *)
Theorem analyze_always_returns (history : list string) :
  exists r,
    analyze history = Ok r /\
    risk_result r = assess_risk (patterns r) /\
    manipulation_result r = detect_manipulation (patterns r) (risk_result r) /\
    make_prediction history (patterns r) (risk_result r) (manipulation_result r)
    = Ok (prediction r) /\
    forall x, In x history -> valid_outcome x = false ->
              In x (non_empate history).
Proof.
  destruct (analyze_shape history)
    as (micro & hidden & comp & ties & pred & _ & _ & _ & _ & Ep & E).
  eexists. split; [exact E|].
  cbn [patterns risk_result manipulation_result prediction].
  split; [reflexivity | split; [reflexivity | split; [exact Ep|]]].
  intros x Hin Hx. apply filter_In. split; [exact Hin|].
  unfold valid_outcome in Hx.
  apply orb_false_iff in Hx. destruct Hx as [_ Hx]. now rewrite Hx.
Qed.

(** C9 as stated fails: X is outside the alphabet, yet analyze returns a
    full result on X E V X (it even bets on X) and signals no
    InvalidOutcomeError. *)
Lemma foreign_outcome_is_analyzed :
  In "X" foreign_history /\ valid_outcome "X" = false /\
  analyze foreign_history <> Exn InvalidOutcomeError /\
  exists r, analyze foreign_history = Ok r /\
            color (prediction r) = Some "X".
Proof.
  split; [now left|]. split; [reflexivity|].
  split; [vm_compute; discriminate|].
  eexists. split; [vm_compute; reflexivity | reflexivity].
Qed.

(** ** A micro-alternation stops the prediction *)

Lemma micro_alternation_predictability (results : list string)
      (ps : list Pattern) (p : Pattern) :
  analyze_micro_patterns results = Ok ps -> In p ps ->
  type p = "micro_alternation" -> predictability p = Some 90%Q.
Proof.
  intros E Hin Ht.
  destruct (Z.lt_ge_cases (len results) 6) as [H|H].
  - unfold analyze_micro_patterns in E.
    replace (len results <? 6) with true in E
      by (symmetry; apply Z.ltb_lt; lia).
    injection E as <-. contradiction.
  - destruct (analyze_micro_patterns_shape results) as (dpc & _ & _ & E'); [lia|].
    rewrite E' in E. injection E as <-.
    apply in_app_or in Hin. destruct Hin as [Hin|Hin].
    + destruct (dpc >=? 2); [|contradiction].
      destruct Hin as [<-|[]]. discriminate Ht.
    + destruct (len (last8_non_empate results) >=? 6); [|contradiction].
      cbv zeta in Hin. destruct (_ >=? 4); [|contradiction].
      destruct Hin as [<-|[]]. reflexivity.
Qed.

(** One pattern of predictability 90 or more adds 80 to the total. *)
Lemma manipulation_score_artificial (ps : list Pattern) (p : Pattern) :
  In p ps -> Qle_bool 90 (get_predictability p) = true ->
  forall acc, fst acc + 80 <= fst (fold_left manipulation_step ps acc).
Proof.
  intros Hin Hp. induction ps as [|q ps IH]; [contradiction|].
  intros acc. simpl. destruct Hin as [->|Hin].
  - pose proof (fold_left_fst_mono manipulation_step ps manipulation_step_fst
                                   (manipulation_step acc p)) as Hm.
    assert (Hs : fst (manipulation_step acc p) = fst acc + 80).
    { destruct acc as [n fs]. unfold manipulation_step. cbv zeta.
      now rewrite Hp. }
    lia.
  - specialize (IH Hin (manipulation_step acc q)).
    pose proof (manipulation_step_fst acc q). lia.
Qed.

(** C10: whenever the micro-pattern detector emits a micro_alternation
    (its predictability is 90), the manipulation score of the analysis is
    at least 80, its level is critical, and the prediction is the stop
    prediction: no color, confidence 0, PARAR COMPLETAMENTE. *)
Theorem micro_alternation_forces_stop (history : list string) :
  emits analyze_micro_patterns history "micro_alternation" ->
  (forall ps p, analyze_micro_patterns history = Ok ps -> In p ps ->
                type p = "micro_alternation" ->
                predictability p = Some 90%Q) /\
  exists r,
    analyze history = Ok r /\
    80 <= score (manipulation_result r) /\
    level (manipulation_result r) = "critical" /\
    prediction r = stop_prediction.
Proof.
  intros (ps & p & Eps & Hin & Ht).
  split; [intros ps' p'; apply micro_alternation_predictability|].
  destruct (analyze_shape history)
    as (micro & hidden & comp & ties & pred & Em & _ & _ & _ & Ep & E).
  rewrite Em in Eps. injection Eps as ->.
  pose proof (micro_alternation_predictability history ps p Em Hin Ht) as H90.
  cbv zeta in Ep, E.
  set (all := (ps ++ hidden ++ comp ++ ties)%list) in *.
  assert (Hall : In p all) by (apply in_or_app; now left).
  assert (Hscore : 80 <= fst (fold_left manipulation_step all (0, []))).
  { assert (Hp : Qle_bool 90 (get_predictability p) = true)
      by (unfold get_predictability; now rewrite H90).
    pose proof (manipulation_score_artificial all p Hall Hp (0, [])) as Hs.
    simpl fst in Hs at 1. lia. }
  assert (Hm : 80 <= score (detect_manipulation all (assess_risk all)) /\
               level (detect_manipulation all (assess_risk all)) = "critical").
  { unfold detect_manipulation.
    destruct (fold_left manipulation_step all (0, [])) as [n fs].
    simpl in *. split; [lia|]. unfold manipulation_level.
    now replace (n >=? 80) with true by (symmetry; apply Z.geb_le; lia). }
  destruct Hm as [Hs Hl].
  eexists. split; [exact E|].
  cbn [manipulation_result prediction]. repeat split; try assumption.
  unfold make_prediction in Ep. rewrite Hl in Ep.
  rewrite String.eqb_refl, orb_true_r in Ep. now injection Ep as <-.
Qed.

Lemma micro_alternation_forces_stop_witness :
  exists r, analyze ["C"; "V"; "C"; "E"; "V"; "C"; "V"] = Ok r /\
            prediction r = stop_prediction.
Proof.
  destruct (micro_alternation_forces_stop ["C"; "V"; "C"; "E"; "V"; "C"; "V"])
    as (_ & r & E & _ & _ & Hp).
  - exists [micro_alternation 5 (5 # 5)], (micro_alternation 5 (5 # 5)).
    repeat split. now left.
  - exists r. split; [exact E | exact Hp].
Defined.

(** * Further properties of the engine *)

(** ** Levels, scores and factors *)

(** A loop whose body adds between [lo] and [hi] per appended text adds
    between [lo] and [hi] per appended text in total. *)
Lemma fold_step_effect (step : Z * list string -> Pattern -> Z * list string)
      (lo hi : Z) :
  (forall acc p, exists k more,
      step acc p = (fst acc + k, (snd acc ++ more)%list) /\
      lo * len more <= k <= hi * len more) ->
  forall ps acc, exists k more,
      fold_left step ps acc = (fst acc + k, (snd acc ++ more)%list) /\
      lo * len more <= k <= hi * len more.
Proof.
  intros Hstep. induction ps as [|p ps IH]; intros acc; simpl.
  - exists 0, []. rewrite app_nil_r, Z.add_0_r.
    split; [now destruct acc|]. unfold len. simpl. lia.
  - destruct (Hstep acc p) as (k1 & m1 & E1 & B1).
    destruct (IH (step acc p)) as (k2 & m2 & E2 & B2).
    rewrite E2, E1. cbn [fst snd].
    exists (k1 + k2), (m1 ++ m2)%list.
    split; [now rewrite Z.add_assoc, app_assoc|].
    rewrite len_app, !Z.mul_add_distr_l. lia.
Qed.

Lemma risk_step_effect (acc : Z * list string) (p : Pattern) :
  exists k more,
    risk_step acc p = (fst acc + k, (snd acc ++ more)%list) /\
    40 * len more <= k <= 70 * len more.
Proof.
  destruct acc as [n fs]. unfold risk_step, append. cbn [fst snd].
  repeat match goal with
         | |- context [if ?b then _ else _] => destruct b
         end;
    try (do 2 eexists; split; [reflexivity | unfold len; simpl; lia]).
  exists 0, []. rewrite app_nil_r, Z.add_0_r.
  split; [reflexivity | unfold len; simpl; lia].
Qed.

Lemma manipulation_step_effect (acc : Z * list string) (p : Pattern) :
  exists k more,
    manipulation_step acc p = (fst acc + k, (snd acc ++ more)%list) /\
    40 * len more <= k <= 80 * len more.
Proof.
  destruct acc as [n fs]. unfold manipulation_step, append. cbv zeta.
  cbn [fst snd].
  repeat match goal with
         | |- context [if ?b then _ else _] => destruct b
         end;
    try (do 2 eexists; split; [reflexivity | unfold len; simpl; lia]).
  exists 0, []. rewrite app_nil_r, Z.add_0_r.
  split; [reflexivity | unfold len; simpl; lia].
Qed.

Lemma len_zero_nil {A : Type} (l : list A) : len l = 0 <-> l = [].
Proof.
  destruct l; unfold len; simpl; split; intros H;
    (reflexivity || discriminate || lia).
Qed.

Lemma risk_level_low (n : Z) : risk_level n = "low" <-> n < 30.
Proof.
  unfold risk_level.
  destruct (Z.geb_spec n 80); [split; [discriminate | lia]|].
  destruct (Z.geb_spec n 55); [split; [discriminate | lia]|].
  destruct (Z.geb_spec n 30); [split; [discriminate | lia]|].
  split; [lia | reflexivity].
Qed.

Lemma risk_level_clamped (n : Z) : risk_level (Z.min n 100) = risk_level n.
Proof.
  unfold risk_level.
  destruct (Z.geb_spec n 80), (Z.geb_spec (Z.min n 100) 80); try lia;
    try reflexivity.
  destruct (Z.geb_spec n 55), (Z.geb_spec (Z.min n 100) 55); try lia;
    try reflexivity.
  destruct (Z.geb_spec n 30), (Z.geb_spec (Z.min n 100) 30); try lia;
    reflexivity.
Qed.

Lemma manipulation_level_low (n : Z) : manipulation_level n = "low" <-> n < 35.
Proof.
  unfold manipulation_level.
  destruct (Z.geb_spec n 80); [split; [discriminate | lia]|].
  destruct (Z.geb_spec n 60); [split; [discriminate | lia]|].
  destruct (Z.geb_spec n 35); [split; [discriminate | lia]|].
  split; [lia | reflexivity].
Qed.

Lemma manipulation_level_clamped (n : Z) :
  manipulation_level (Z.min n 100) = manipulation_level n.
Proof.
  unfold manipulation_level.
  destruct (Z.geb_spec n 80), (Z.geb_spec (Z.min n 100) 80); try lia;
    try reflexivity.
  destruct (Z.geb_spec n 60), (Z.geb_spec (Z.min n 100) 60); try lia;
    try reflexivity.
  destruct (Z.geb_spec n 35), (Z.geb_spec (Z.min n 100) 35); try lia;
    reflexivity.
Qed.

(** X1: the risk level is the level of the reported (clamped) score; the
    score is 0 exactly when no factor is reported, and the level is low
    exactly then: one factor alone already makes the level medium or
    higher. *)
Theorem risk_level_of_score (patterns : list Pattern) :
  level (assess_risk patterns) = risk_level (score (assess_risk patterns)) /\
  (score (assess_risk patterns) = 0 <-> factors (assess_risk patterns) = []) /\
  (level (assess_risk patterns) = "low"
   <-> factors (assess_risk patterns) = []).
Proof.
  unfold assess_risk.
  destruct (fold_step_effect risk_step 40 70 risk_step_effect patterns (0, []))
    as (k & more & E & B).
  rewrite E. cbn [fst snd app level score factors].
  pose proof (len_nonneg more) as Hm.
  pose proof (len_zero_nil more) as Hz.
  split; [now rewrite risk_level_clamped|].
  split.
  - split; intros H; [apply Hz; lia | apply Hz in H; lia].
  - rewrite risk_level_low.
    split; intros H; [apply Hz; lia | apply Hz in H; lia].
Qed.

(** X2: the manipulation level is the level of the reported (clamped)
    score; the score is 0 exactly when no sign is reported, and the level
    is low exactly then. *)
Theorem manipulation_level_of_score (patterns : list Pattern)
        (risk : Assessment) :
  let m := detect_manipulation patterns risk in
  level m = manipulation_level (score m) /\
  (score m = 0 <-> factors m = []) /\
  (level m = "low" <-> factors m = []).
Proof.
  unfold detect_manipulation.
  destruct (fold_step_effect manipulation_step 40 80 manipulation_step_effect
                             patterns (0, []))
    as (k & more & E & B).
  rewrite E. cbn [fst snd app level score factors]. cbv zeta.
  pose proof (len_nonneg more) as Hm.
  pose proof (len_zero_nil more) as Hz.
  split; [now rewrite manipulation_level_clamped|].
  split.
  - split; intros H; [apply Hz; lia | apply Hz in H; lia].
  - rewrite manipulation_level_low.
    split; intros H; [apply Hz; lia | apply Hz in H; lia].
Qed.

(** X3: scoring composes over concatenation: more patterns never lower a
    score, and the factors (signs) of a list are kept, in order, at the
    head of the factors of any extension of it. *)
Theorem scores_grow_with_patterns (ps qs : list Pattern) (risk : Assessment) :
  score (assess_risk ps) <= score (assess_risk (ps ++ qs)) /\
  score (detect_manipulation ps risk)
  <= score (detect_manipulation (ps ++ qs) risk) /\
  (exists more,
      factors (assess_risk (ps ++ qs))
      = (factors (assess_risk ps) ++ more)%list) /\
  (exists more,
      factors (detect_manipulation (ps ++ qs) risk)
      = (factors (detect_manipulation ps risk) ++ more)%list).
Proof.
  unfold assess_risk, detect_manipulation. rewrite !fold_left_app.
  destruct (fold_left risk_step ps (0, [])) as [n fs] eqn:Er.
  destruct (fold_step_effect risk_step 40 70 risk_step_effect qs (n, fs))
    as (k & more & E & B).
  destruct (fold_left manipulation_step ps (0, [])) as [n' fs'] eqn:Em.
  destruct (fold_step_effect manipulation_step 40 80 manipulation_step_effect
                             qs (n', fs'))
    as (k' & more' & E' & B').
  rewrite E, E'. cbn [fst snd score factors].
  pose proof (len_nonneg more). pose proof (len_nonneg more').
  repeat split; try lia; eexists; reflexivity.
Qed.

(** ** The 2x2 check *)

(** X4: on a history of at least six outcomes, with a b c d e f its last
    six, the 2x2 check counts the pairs (a,b), (c,d), (e,f) that are equal
    and not ties, and a micro_double_pattern with strength count/3, risk
    critical when the count is 3 and high otherwise, and predictability 85
    is emitted exactly when the count is at least 2.  The detector never
    returns more than two patterns. *)
Theorem double_pattern_counts_pairs (results : list string) :
  6 <= len results ->
  exists a b c d e f patterns,
    slice_from results (-6) = [a; b; c; d; e; f] /\
    analyze_micro_patterns results = Ok patterns /\
    (length patterns <= 2)%nat /\
    let count := pair_hit a b + pair_hit c d + pair_hit e f in
    (2 <= count ->
     exists p, In p patterns /\ type p = "micro_double_pattern" /\
               strength p = count # 3 /\
               risk p = (if count =? 3 then "critical" else "high") /\
               predictability p = Some 85%Q) /\
    (count < 2 -> forall p, In p patterns -> type p <> "micro_double_pattern").
Proof.
  intros Hlen.
  destruct (length_six (slice_from results (-6))) as (a & b & c & d & e & f & E6).
  { rewrite slice_from_last_length by lia. reflexivity. }
  destruct (analyze_micro_patterns_shape results Hlen) as (dpc & Ed & _ & E).
  rewrite E6, double_pattern_count_six in Ed. injection Ed as <-.
  exists a, b, c, d, e, f. eexists.
  split; [exact E6 | split; [exact E|]].
  set (count := pair_hit a b + pair_hit c d + pair_hit e f).
  split.
  { rewrite length_app.
    destruct (count >=? 2); destruct (len (last8_non_empate results) >=? 6);
      cbv zeta; try destruct (_ >=? 4); simpl; lia. }
  cbv zeta. split.
  - intros Hc.
    replace (count >=? 2) with true by (symmetry; apply Z.geb_le; lia).
    exists (micro_double_pattern count (count # 3)).
    split; [apply in_or_app; left; now left|].
    repeat split; reflexivity.
  - intros Hc p Hin.
    assert (Hf : (count >=? 2) = false)
      by (rewrite Z.geb_leb; apply Z.leb_gt; lia).
    rewrite Hf in Hin. cbn [app] in Hin.
    destruct (len (last8_non_empate results) >=? 6); [|contradiction].
    cbv zeta in Hin. destruct (_ >=? 4); [|contradiction].
    destruct Hin as [<-|[]]. discriminate.
Qed.

Lemma double_pattern_counts_pairs_witness :
  exists patterns,
    analyze_micro_patterns ["C"; "C"; "V"; "V"; "E"; "C"] = Ok patterns /\
    exists p, In p patterns /\ strength p = 2 # 3.
Proof.
  destruct (double_pattern_counts_pairs ["C"; "C"; "V"; "V"; "E"; "C"])
    as (a & b & c & d & e & f & patterns & E6 & E & _ & Hyes & _).
  - vm_compute. discriminate.
  - exists patterns. split; [exact E|].
    injection E6 as <- <- <- <- <- <-.
    destruct Hyes as (p & Hin & _ & Hs & _).
    + vm_compute. discriminate.
    + exists p. split; [exact Hin | exact Hs].
Defined.

(** ** The hidden-cycle detector *)

Lemma repeated_of_iff (c : list (string * Z)) (s : string) (n : Z) :
  In (s, n) (repeated_of c) <-> In (s, n) c /\ 2 <= n.
Proof.
  unfold repeated_of. rewrite filter_In. cbn [snd].
  split; intros [H1 H2]; (split; [exact H1|]).
  - now apply geb_true.
  - apply Z.geb_le. lia.
Qed.

Lemma in_Counter_count (l : list string) (s : string) (n : Z) :
  In (s, n) (Counter l) -> n = count l s.
Proof.
  intros Hin. rewrite <- lookup_Counter. symmetry.
  apply lookup_item; [apply Counter_keys | exact Hin].
Qed.

Lemma count_in_Counter (l : list string) (s : string) :
  0 < count l s -> In (s, count l s) (Counter l).
Proof.
  intros H. rewrite <- lookup_Counter in *. apply lookup_positive. lia.
Qed.

(** One cycle size yields at most one pattern, none exactly when no window
    occurs twice. *)
Lemma hidden_cycles_of_size_spec (non_empate : list string) (cycle_size : Z) :
  exists ps,
    hidden_cycles_of_size non_empate cycle_size = Ok ps /\
    (length ps <= 1)%nat /\
    Forall (cycle_of_size_ok non_empate cycle_size) ps /\
    (ps = [] -> forall s, count (cycles_of non_empate cycle_size) s < 2).
Proof.
  unfold hidden_cycles_of_size. cbv zeta.
  pose (cs := cycles_of non_empate cycle_size).
  destruct (repeated_of (Counter (cycles_of non_empate cycle_size)))
    as [|item rest] eqn:ER; unfold cycle_of_size_ok; fold cs in ER |- *.
  - exists []. split; [reflexivity|]. split; [simpl; lia|].
    split; [constructor|]. intros _ s.
    destruct (Z.lt_ge_cases (count cs s) 2) as [H|H]; [exact H|].
    exfalso.
    assert (Hin : In (s, count cs s) (repeated_of (Counter cs))).
    { apply repeated_of_iff. split; [apply count_in_Counter; lia | lia]. }
    rewrite ER in Hin. contradiction.
  - destruct (max_by_spec snd (item :: rest)) as ([s n] & E & Hin & Hmax);
      [discriminate|].
    rewrite E. cbn [bind]. rewrite truediv_pos by lia. cbn [bind].
    rewrite <- ER in Hin, Hmax.
    apply repeated_of_iff in Hin. destruct Hin as [Hin Hn].
    eexists. split; [reflexivity|]. split; [simpl; lia|].
    split; [|discriminate].
    constructor; [|constructor].
    exists s, n. split; [reflexivity|]. split; [exact Hn|].
    split; [now apply in_Counter_count|].
    intros s'.
    destruct (Z.lt_ge_cases (count cs s') 2) as [H|H]; [lia|].
    apply (Hmax (s', count cs s')).
    apply repeated_of_iff. split; [apply count_in_Counter; lia | lia].
Qed.

Lemma for_append_bounded {A B : Type} (P : A -> B -> Prop)
      (body : A -> res (list B)) (l : list A) :
  (forall x, In x l ->
             exists ps, body x = Ok ps /\ (length ps <= 1)%nat /\
                        Forall (P x) ps) ->
  exists ps, for_append body l = Ok ps /\ (length ps <= length l)%nat /\
             Forall (fun p => exists x, In x l /\ P x p) ps.
Proof.
  induction l as [|x l IH]; intros H; simpl.
  - exists []. split; [reflexivity|]. split; [simpl; lia | constructor].
  - destruct (H x) as (ps & E & L & F); [now left|].
    destruct IH as (qs & E' & L' & F'); [intros y Hy; apply H; now right|].
    rewrite E, E'. cbn [bind]. exists (ps ++ qs)%list.
    split; [reflexivity|]. split; [rewrite length_app; lia|].
    apply Forall_app. split.
    + eapply Forall_impl; [|exact F]. intros p Hp. exists x. split; [now left | exact Hp].
    + eapply Forall_impl; [|exact F']. intros p (y & Hy & Hp).
      exists y. split; [now right | exact Hp].
Qed.

Lemma of_cycle_size_same (non_empate : list string) (sz : Z)
      (ps : list Pattern) :
  Forall (cycle_of_size_ok non_empate sz) ps -> of_cycle_size sz ps = ps.
Proof.
  induction 1 as [|p ps (s & n & -> & _) _ IH]; [reflexivity|].
  unfold of_cycle_size in *. cbn [filter extra hidden_cycle].
  rewrite Z.eqb_refl. now f_equal.
Qed.

Lemma of_cycle_size_other (non_empate : list string) (sz sz' : Z)
      (ps : list Pattern) :
  sz' <> sz -> Forall (cycle_of_size_ok non_empate sz') ps ->
  of_cycle_size sz ps = [].
Proof.
  intros Hne. induction 1 as [|p ps (s & n & -> & _) _ IH]; [reflexivity|].
  unfold of_cycle_size in *. cbn [filter extra hidden_cycle].
  now replace (sz' =? sz) with false by (symmetry; now apply Z.eqb_neq).
Qed.

Lemma of_cycle_size_le (non_empate : list string) (sz sz' : Z)
      (ps : list Pattern) :
  Forall (cycle_of_size_ok non_empate sz') ps ->
  (length (of_cycle_size sz ps)
   <= if (sz' =? sz)%Z then length ps else 0)%nat.
Proof.
  intros F. destruct (Z.eqb_spec sz' sz) as [->|Hne].
  - now rewrite (of_cycle_size_same non_empate sz ps F).
  - now rewrite (of_cycle_size_other non_empate sz sz' ps Hne F).
Qed.

(** What the detector returns, cycle size by cycle size. *)
Lemma detect_hidden_cycles_by_size (results : list string) :
  exists ps3 ps4 ps5 ps6,
    detect_hidden_cycles results = Ok (ps3 ++ ps4 ++ ps5 ++ ps6)%list /\
    (length ps3 <= 1)%nat /\ Forall (cycle_of_size_ok (non_empate results) 3) ps3 /\
    (length ps4 <= 1)%nat /\ Forall (cycle_of_size_ok (non_empate results) 4) ps4 /\
    (length ps5 <= 1)%nat /\ Forall (cycle_of_size_ok (non_empate results) 5) ps5 /\
    (length ps6 <= 1)%nat /\ Forall (cycle_of_size_ok (non_empate results) 6) ps6.
Proof.
  unfold detect_hidden_cycles. cbv zeta.
  destruct (len (non_empate results) <? 12).
  { exists [], [], [], [].
    repeat split; try (simpl; lia); constructor. }
  destruct (hidden_cycles_of_size_spec (non_empate results) 3)
    as (ps3 & E3 & L3 & F3 & _).
  destruct (hidden_cycles_of_size_spec (non_empate results) 4)
    as (ps4 & E4 & L4 & F4 & _).
  destruct (hidden_cycles_of_size_spec (non_empate results) 5)
    as (ps5 & E5 & L5 & F5 & _).
  destruct (hidden_cycles_of_size_spec (non_empate results) 6)
    as (ps6 & E6 & L6 & F6 & _).
  exists ps3, ps4, ps5, ps6. repeat split; try assumption.
  change (range 3 7) with [3; 4; 5; 6]. cbn [for_append].
  rewrite E3, E4, E5, E6. cbn [bind]. now rewrite app_nil_r.
Qed.

(** X5: the hidden-cycle detector returns at most four patterns, at most
    one per cycle size 3..6 (the sizes in increasing order); each is the
    record of a substring of that size that occurs [n >= 2] times among the
    sliding windows of the non-tie outcomes, [n] being the greatest number
    of occurrences of any window of that size. *)
Theorem hidden_cycles_report_most_repeated (results : list string) :
  exists ps,
    detect_hidden_cycles results = Ok ps /\
    (length ps <= 4)%nat /\
    Forall (cycle_pattern_ok results) ps /\
    (forall cycle_size, (length (of_cycle_size cycle_size ps) <= 1)%nat) /\
    exists ps3 ps4 ps5 ps6,
      ps = (ps3 ++ ps4 ++ ps5 ++ ps6)%list /\
      of_cycle_size 3 ps = ps3 /\ of_cycle_size 4 ps = ps4 /\
      of_cycle_size 5 ps = ps5 /\ of_cycle_size 6 ps = ps6.
Proof.
  destruct (detect_hidden_cycles_by_size results)
    as (ps3 & ps4 & ps5 & ps6 & E & L3 & F3 & L4 & F4 & L5 & F5 & L6 & F6).
  exists (ps3 ++ ps4 ++ ps5 ++ ps6)%list.
  split; [exact E|]. split; [rewrite !length_app; lia|].
  assert (Hsize : forall sz ps,
             In sz (range 3 7) ->
             Forall (cycle_of_size_ok (non_empate results) sz) ps ->
             Forall (cycle_pattern_ok results) ps).
  { intros sz ps Hsz F. eapply Forall_impl; [|exact F].
    intros p Hp. exists sz. now split. }
  split.
  { repeat (apply Forall_app; split);
      [apply (Hsize 3) | apply (Hsize 4) | apply (Hsize 5) | apply (Hsize 6)];
      try assumption; vm_compute; auto. }
  split.
  - intros sz. unfold of_cycle_size. rewrite !filter_app, !length_app.
    fold (of_cycle_size sz ps3) (of_cycle_size sz ps4)
         (of_cycle_size sz ps5) (of_cycle_size sz ps6).
    pose proof (of_cycle_size_le _ sz 3 ps3 F3) as H3.
    pose proof (of_cycle_size_le _ sz 4 ps4 F4) as H4.
    pose proof (of_cycle_size_le _ sz 5 ps5 F5) as H5.
    pose proof (of_cycle_size_le _ sz 6 ps6 F6) as H6.
    destruct (Z.eqb_spec 3 sz), (Z.eqb_spec 4 sz), (Z.eqb_spec 5 sz),
      (Z.eqb_spec 6 sz); lia.
  - exists ps3, ps4, ps5, ps6. split; [reflexivity|].
    unfold of_cycle_size. rewrite !filter_app.
    fold (of_cycle_size 3 ps3) (of_cycle_size 3 ps4) (of_cycle_size 3 ps5)
         (of_cycle_size 3 ps6) (of_cycle_size 4 ps3) (of_cycle_size 4 ps4)
         (of_cycle_size 4 ps5) (of_cycle_size 4 ps6) (of_cycle_size 5 ps3)
         (of_cycle_size 5 ps4) (of_cycle_size 5 ps5) (of_cycle_size 5 ps6)
         (of_cycle_size 6 ps3) (of_cycle_size 6 ps4) (of_cycle_size 6 ps5)
         (of_cycle_size 6 ps6).
    rewrite (of_cycle_size_same _ 3 ps3 F3), (of_cycle_size_same _ 4 ps4 F4),
      (of_cycle_size_same _ 5 ps5 F5), (of_cycle_size_same _ 6 ps6 F6).
    rewrite (of_cycle_size_other (non_empate results) 3 4 ps4 ltac:(lia) F4),
      (of_cycle_size_other (non_empate results) 3 5 ps5 ltac:(lia) F5),
      (of_cycle_size_other (non_empate results) 3 6 ps6 ltac:(lia) F6).
    rewrite (of_cycle_size_other (non_empate results) 4 3 ps3 ltac:(lia) F3),
      (of_cycle_size_other (non_empate results) 4 5 ps5 ltac:(lia) F5),
      (of_cycle_size_other (non_empate results) 4 6 ps6 ltac:(lia) F6).
    rewrite (of_cycle_size_other (non_empate results) 5 3 ps3 ltac:(lia) F3),
      (of_cycle_size_other (non_empate results) 5 4 ps4 ltac:(lia) F4),
      (of_cycle_size_other (non_empate results) 5 6 ps6 ltac:(lia) F6).
    rewrite (of_cycle_size_other (non_empate results) 6 3 ps3 ltac:(lia) F3),
      (of_cycle_size_other (non_empate results) 6 4 ps4 ltac:(lia) F4),
      (of_cycle_size_other (non_empate results) 6 5 ps5 ltac:(lia) F5).
    rewrite !app_nil_r. repeat split; reflexivity.
Qed.

(** ** The strategic-tie detector *)

Lemma rev_range_succ (k : nat) :
  rev (range 0 (Z.of_nat (S k))) = Z.of_nat k :: rev (range 0 (Z.of_nat k)).
Proof.
  unfold range. rewrite !Z.sub_0_r, !Nat2Z.id, seq_S, map_app.
  cbn [map]. rewrite rev_unit. reflexivity.
Qed.

Lemma firstn_succ {A : Type} (l : list A) (k : nat) (x : A) :
  nth_error l k = Some x -> firstn (S k) l = (firstn k l ++ [x])%list.
Proof.
  revert k. induction l as [|y l IH]; intros [|k] H; simpl in *;
    try discriminate.
  - now injection H as ->.
  - f_equal. now apply IH.
Qed.

(** The backward loop counts the run of [color] that ends at index [k-1]. *)
Lemma sequence_scan_run (seq : list string) (color : string) (k : nat) :
  (k <= length seq)%nat ->
  forall acc,
    sequence_scan seq color (rev (range 0 (Z.of_nat k))) acc
    = Ok (acc + leading_run color (rev (firstn k seq))).
Proof.
  induction k as [|k IH]; intros Hk acc.
  - simpl. now rewrite Z.add_0_r.
  - rewrite rev_range_succ. cbn [sequence_scan].
    destruct (nth_error seq k) as [x|] eqn:Ex;
      [|apply nth_error_None in Ex; lia].
    rewrite (index_nonneg seq (Z.of_nat k) x) by (lia || now rewrite Nat2Z.id).
    cbn [bind]. rewrite (firstn_succ seq k x Ex), rev_unit.
    cbn [leading_run]. destruct (x =? color)%string.
    + rewrite IH by lia. now rewrite Z.add_assoc.
    + now rewrite Z.add_0_r.
Qed.

Lemma index_last {A : Type} (l : list A) (c : A) :
  index (l ++ [c]) (-1) = Ok c.
Proof.
  unfold index. cbn [Z.ltb Z.compare].
  rewrite len_app. change (len [c]) with 1.
  replace (-1 + (len l + 1)) with (len l) by lia.
  pose proof (len_nonneg l).
  replace ((len l <? 0) || (len l + 1 <=? len l)) with false
    by (symmetry; apply orb_false_iff; split;
        [apply Z.ltb_ge | apply Z.leb_gt]; lia).
  unfold len. rewrite Nat2Z.id, nth_error_app2, Nat.sub_diag by lia.
  reflexivity.
Qed.

(** X6: get_sequence_length returns 0 on the empty sequence and otherwise
    the length of the run of the last element at the end of the sequence,
    a number between 1 and the length of the sequence; it never raises. *)
Theorem get_sequence_length_trailing_run (seq : list string) :
  get_sequence_length seq = Ok (trailing_run seq) /\
  (seq = [] -> trailing_run seq = 0) /\
  (seq <> [] -> 1 <= trailing_run seq <= len seq).
Proof.
  assert (Hrun : forall color l, 0 <= leading_run color l <= len l).
  { intros color l. induction l as [|x l IH]; cbn [leading_run].
    - unfold len. simpl. lia.
    - rewrite len_cons. destruct (x =? color)%string; lia. }
  split; [|split].
  - destruct seq as [|y s]; [reflexivity|].
    destruct (@exists_last _ (y :: s)) as (l & c & E); [discriminate|].
    unfold get_sequence_length. rewrite E, index_last. cbn [bind].
    rewrite len_app. change (len [c]) with 1.
    replace (len l + 1 - 1) with (Z.of_nat (length l)) by (unfold len; lia).
    rewrite sequence_scan_run by (rewrite length_app; simpl; lia).
    unfold trailing_run. rewrite rev_unit.
    rewrite firstn_app, Nat.sub_diag, firstn_all, app_nil_r. reflexivity.
  - intros ->. reflexivity.
  - intros Hne.
    destruct (exists_last Hne) as (l & c & ->).
    unfold trailing_run. rewrite rev_unit, len_app. change (len [c]) with 1.
    specialize (Hrun c (rev l)). unfold len in *. rewrite length_rev in Hrun.
    lia.
Qed.

Lemma slice_after_prefix {A : Type} (pre rest : list A) (k : Z) :
  0 <= k ->
  slice (pre ++ rest) (len pre) (len pre + k) = firstn (Z.to_nat k) rest.
Proof.
  intros Hk. unfold slice, bound. rewrite len_app.
  pose proof (len_nonneg pre). pose proof (len_nonneg rest).
  replace (len pre <? 0) with false by (symmetry; apply Z.ltb_ge; lia).
  replace (len pre + k <? 0) with false by (symmetry; apply Z.ltb_ge; lia).
  replace (Z.to_nat (Z.max 0 (Z.min (len pre + len rest) (len pre))))
    with (length pre) by (unfold len in *; lia).
  rewrite skipn_app, skipn_all, Nat.sub_diag. cbn [app skipn].
  destruct (Z.le_gt_cases k (len rest)) as [Hle|Hgt].
  - f_equal. lia.
  - rewrite !firstn_all2; [reflexivity | unfold len in *; lia
                           | unfold len in *; lia].
Qed.

Lemma last_three {A : Type} (l : list A) :
  (3 <= length l)%nat -> exists pre a b c, l = (pre ++ [a; b; c])%list.
Proof.
  intros Hl. rewrite <- (firstn_skipn (length l - 3) l).
  pose proof (length_skipn (length l - 3) l) as Hs.
  destruct (skipn (length l - 3) l) as [|a [|b [|c [|d t]]]];
    simpl in Hs; try lia.
  now exists (firstn (length l - 3) l), a, b, c.
Qed.

Lemma in_combine_range (l : list string) (a : nat) (i : Z) (r : string) :
  In (i, r) (combine (map (fun k => 0 + Z.of_nat k) (seq a (length l))) l) ->
  exists k, i = Z.of_nat (a + k) /\ nth_error l k = Some r.
Proof.
  revert a. induction l as [|x l IH]; intros a Hin; simpl in Hin; [easy|].
  destruct Hin as [E|Hin].
  - injection E as <- <-. exists 0%nat. split; [f_equal; lia | reflexivity].
  - destruct (IH (S a) Hin) as (k & -> & Hk).
    exists (S k). split; [f_equal; lia | exact Hk].
Qed.

(** A tie position is an index of the history that holds a tie. *)
Lemma tie_positions_spec (results : list string) (i : Z) :
  In i (tie_positions_of results) ->
  exists l1 l2, results = (l1 ++ "E" :: l2)%list /\ i = len l1.
Proof.
  unfold tie_positions_of, enumerate, range. intros Hin.
  apply in_map_iff in Hin. destruct Hin as ([j r] & <- & Hin).
  apply filter_In in Hin. destruct Hin as [Hin Hr]. cbn [snd fst] in *.
  apply String.eqb_eq in Hr. subst r.
  rewrite Z.sub_0_r in Hin. unfold len in Hin. rewrite Nat2Z.id in Hin.
  apply in_combine_range in Hin. destruct Hin as (k & -> & Hk).
  apply nth_error_split in Hk. destruct Hk as (l1 & l2 & -> & <-).
  exists l1, l2. split; [reflexivity | reflexivity].
Qed.

Ltac split_eqb_spec :=
  repeat match goal with
         | |- context [String.eqb ?x ?y] =>
             destruct (String.eqb_spec x y); subst
         end.

(** What the loop body returns at a tie with three outcomes before it. *)
Lemma strategic_ties_at_shape (pre post : list string) (a b c : string) :
  strategic_ties_at (pre ++ [a; b; c] ++ "E" :: post) (len pre + 3)
  = Ok ((if (c =? b)%string && negb (c =? "E")%string
         then [strategic_tie_after_sequence (len pre + 3) c
                 (if (a =? c)%string then 3 else 2)]
         else [])
        ++ match post with
           | x :: _ :: _ =>
               if negb (c =? "E")%string && negb (x =? "E")%string
                  && negb (c =? x)%string
               then [strategic_tie_before_reversal (len pre + 3) c x]
               else []
           | _ => []
           end)%list.
Proof.
  unfold strategic_ties_at.
  pose proof (len_nonneg pre) as Hp.
  replace (len pre + 3 >=? 3) with true by (symmetry; apply Z.geb_le; lia).
  cbv zeta.
  replace (Z.max 0 (len pre + 3 - 3)) with (len pre) by lia.
  rewrite (slice_after_prefix pre ([a; b; c] ++ "E" :: post) 3) by lia.
  replace (pre ++ [a; b; c] ++ "E" :: post)%list
    with ((pre ++ [a; b; c; "E"]) ++ post)%list
    by (rewrite <- app_assoc; reflexivity).
  replace (len pre + 3 + 1) with (len (pre ++ [a; b; c; "E"]))
    by (rewrite len_app; change (len [a; b; c; "E"]) with 4; lia).
  replace (len pre + 3 + 4) with (len (pre ++ [a; b; c; "E"]) + 3)
    by (rewrite len_app; change (len [a; b; c; "E"]) with 4; lia).
  rewrite (slice_after_prefix (pre ++ [a; b; c; "E"]) post 3) by lia.
  change (firstn (Z.to_nat 3) ([a; b; c] ++ "E" :: post)) with [a; b; c].
  generalize (strategic_tie_after_sequence (len pre + 3)).
  generalize (strategic_tie_before_reversal (len pre + 3)).
  intros mk2 mk1.
  destruct post as [|x [|y [|z post]]];
    cbv -[String.eqb]; split_eqb_spec; try reflexivity; congruence.
Qed.

(** What the loop body returns at a tie position of the history. *)
Lemma strategic_ties_at_spec (results : list string) (tie_pos : Z) :
  In tie_pos (tie_positions_of results) ->
  exists ps,
    strategic_ties_at results tie_pos = Ok ps /\
    Forall (tie_pattern_ok results) ps.
Proof.
  intros Hin.
  apply tie_positions_spec in Hin. destruct Hin as (l1 & l2 & -> & ->).
  destruct (Z.lt_ge_cases (len l1) 3) as [Hlt|Hge].
  { exists []. split; [|constructor]. unfold strategic_ties_at.
    assert (Hf : (len l1 >=? 3) = false)
      by (rewrite Z.geb_leb; apply Z.leb_gt; lia).
    now rewrite Hf. }
  destruct (last_three l1) as (pre & a & b & c & ->);
    [unfold len in Hge; lia|].
  rewrite len_app. change (len [a; b; c]) with 3.
  rewrite <- app_assoc. rewrite strategic_ties_at_shape.
  eexists. split; [reflexivity|].
  apply Forall_app. split.
  - destruct (String.eqb_spec c b) as [->|]; [|constructor].
    destruct (String.eqb_spec b "E"); constructor; [|constructor].
    exists pre, a, b, b, l2. split; [reflexivity|]. left. now repeat split.
  - destruct l2 as [|x [|y rest]]; try constructor.
    destruct (String.eqb_spec c "E"); [constructor|].
    destruct (String.eqb_spec x "E"); [constructor|].
    destruct (String.eqb_spec c x); constructor; [|constructor].
    exists pre, a, b, c, (x :: y :: rest). split; [reflexivity|]. right.
    exists x, y, rest. now repeat split.
Qed.

(** X7: every pattern of the strategic-tie detector sits at a tie that has
    three outcomes a b c before it.  A strategic_tie_after_sequence is
    emitted only when b = c is not a tie, with sequence_color c and
    sequence_length 3 when a = c and 2 otherwise; a
    strategic_tie_before_reversal only when at least two outcomes x y
    follow the tie, c and x are not ties and differ, with from_color c and
    to_color x.  The position is the index of the tie. *)
Theorem strategic_ties_sit_at_ties (results : list string) :
  exists ps,
    analyze_strategic_ties results = Ok ps /\
    Forall (tie_pattern_ok results) ps.
Proof.
  unfold analyze_strategic_ties. destruct (len results <? 8).
  - exists []. split; [reflexivity | constructor].
  - apply for_append_ok. intros tie_pos Hin.
    now apply strategic_ties_at_spec.
Qed.

(** ** Thresholds of the compensation detector *)

Lemma compensation_window_exact (results : list string) (W : Z) :
  0 < W -> W <= len (non_empate results) ->
  compensation_window (non_empate results) W = Ok (window_patterns results W).
Proof.
  intros HW Hn. unfold compensation_window.
  replace (len (non_empate results) >=? W) with true
    by (symmetry; apply Z.geb_le; lia).
  cbv zeta. fold (c_count_of results W) (v_count_of results W).
  fold (imbalance_of results W).
  rewrite truediv_pos by lia. reflexivity.
Qed.

Lemma ratio_below (i W : Z) :
  0 < W -> (Qlt_bool (i # Z.to_pos W) (1 # 10) = true <-> 10 * i < W).
Proof.
  intros HW. rewrite Qlt_bool_iff. unfold Qlt. cbn [Qnum Qden].
  rewrite Z2Pos.id by lia. lia.
Qed.

Lemma ratio_above (i W : Z) :
  0 < W -> (Qlt_bool (4 # 10) (i # Z.to_pos W) = true <-> 4 * W < 10 * i).
Proof.
  intros HW. rewrite Qlt_bool_iff. unfold Qlt. cbn [Qnum Qden].
  rewrite Z2Pos.id by lia. lia.
Qed.

Lemma in_window_patterns (results : list string) (W : Z) (p : Pattern) :
  0 < W ->
  (In p (window_patterns results W) <->
   (p = artificial_balance W (c_count_of results W) (v_count_of results W)
                           (imbalance_of results W # Z.to_pos W)
    /\ 10 * imbalance_of results W < W /\ 15 <= W)
   \/
   (p = compensation_pending W (imbalance_of results W) (c_count_of results W)
                             (v_count_of results W)
                             (imbalance_of results W # Z.to_pos W)
    /\ 4 * W < 10 * imbalance_of results W)).
Proof.
  intros HW. unfold window_patterns. cbv zeta.
  pose proof (ratio_below (imbalance_of results W) W HW) as Hb.
  pose proof (ratio_above (imbalance_of results W) W HW) as Ha.
  rewrite in_app_iff.
  destruct (Qlt_bool (imbalance_of results W # Z.to_pos W) (1 # 10));
    destruct (Qlt_bool (4 # 10) (imbalance_of results W # Z.to_pos W));
    destruct (Z.geb_spec W 15); cbn [andb In];
    intuition (try discriminate; try lia; auto).
Qed.

Lemma analyze_compensation_patterns_exact (results : list string) :
  20 <= len (non_empate results) ->
  analyze_compensation_patterns results
  = Ok (window_patterns results 12 ++ window_patterns results 15
        ++ window_patterns results 18)%list.
Proof.
  intros Hn. unfold analyze_compensation_patterns. cbv zeta.
  replace (len (non_empate results) <? 20) with false
    by (symmetry; apply Z.ltb_ge; lia).
  unfold windows. cbn [for_append].
  rewrite !compensation_window_exact by lia. cbn [bind].
  now rewrite app_nil_r.
Qed.

(** X8: on a history of at least 20 non-tie outcomes and for each window
    size W in {12,15,18}, with |C - V| the imbalance of the last W non-tie
    outcomes: a compensation_pending of window_size W is emitted exactly
    when the imbalance is at least 5 (W = 12), 7 (W = 15) or 8 (W = 18);
    an artificial_balance of window_size W is emitted exactly when W is 15
    or 18 and the imbalance is at most 1. *)
Theorem compensation_integer_thresholds (results : list string) (W : Z) :
  20 <= len (non_empate results) -> In W windows ->
  exists ps,
    analyze_compensation_patterns results = Ok ps /\
    ((exists p, In p ps /\ type p = "compensation_pending" /\
                window_size_of p = Some W)
     <-> pending_threshold W <= imbalance_of results W) /\
    ((exists p, In p ps /\ type p = "artificial_balance" /\
                window_size_of p = Some W)
     <-> 15 <= W /\ imbalance_of results W <= 1).
Proof.
  intros Hn HW. eexists.
  split; [apply analyze_compensation_patterns_exact; exact Hn|].
  assert (Hin : forall p,
             In p (window_patterns results 12 ++ window_patterns results 15
                   ++ window_patterns results 18)%list ->
             exists W', In W' windows /\ In p (window_patterns results W')).
  { intros p Hp. rewrite !in_app_iff in Hp.
    destruct Hp as [Hp|[Hp|Hp]];
      [exists 12 | exists 15 | exists 18]; (split; [|exact Hp]);
      unfold windows; simpl; auto. }
  assert (Hall : forall p W', In W' windows ->
                              In p (window_patterns results W') ->
                              In p (window_patterns results 12
                                    ++ window_patterns results 15
                                    ++ window_patterns results 18)%list).
  { intros p W' HW' Hp. rewrite !in_app_iff.
    destruct HW' as [<-|[<-|[<-|[]]]]; auto. }
  assert (Hpos : forall W', In W' windows -> 0 < W').
  { intros W' [<-|[<-|[<-|[]]]]; lia. }
  assert (Hthr : 4 * W < 10 * imbalance_of results W
                 <-> pending_threshold W <= imbalance_of results W).
  { destruct HW as [<-|[<-|[<-|[]]]];
      [change (pending_threshold 12) with 5
      |change (pending_threshold 15) with 7
      |change (pending_threshold 18) with 8]; lia. }
  assert (Hbal : 10 * imbalance_of results W < W /\ 15 <= W
                 <-> 15 <= W /\ imbalance_of results W <= 1).
  { destruct HW as [<-|[<-|[<-|[]]]]; lia. }
  split; split.
  - intros (p & Hp & Ht & Hw). apply Hthr.
    destruct (Hin p Hp) as (W' & HW' & Hp').
    apply in_window_patterns in Hp'; [|now apply Hpos].
    destruct Hp' as [(-> & _)|(-> & Hi)]; [discriminate Ht|].
    cbn in Hw. injection Hw as ->. exact Hi.
  - intros Hi. apply Hthr in Hi.
    eexists. split; [apply (Hall _ W HW), in_window_patterns;
                     [now apply Hpos | right; split; [reflexivity | exact Hi]]|].
    split; reflexivity.
  - intros (p & Hp & Ht & Hw). apply Hbal.
    destruct (Hin p Hp) as (W' & HW' & Hp').
    apply in_window_patterns in Hp'; [|now apply Hpos].
    destruct Hp' as [(-> & Hi)|(-> & _)]; [|discriminate Ht].
    cbn in Hw. injection Hw as ->. exact Hi.
  - intros Hi. apply Hbal in Hi.
    eexists. split; [apply (Hall _ W HW), in_window_patterns;
                     [now apply Hpos | left; split; [reflexivity | exact Hi]]|].
    split; reflexivity.
Qed.

Lemma compensation_integer_thresholds_witness :
  exists ps,
    analyze_compensation_patterns lopsided_history = Ok ps /\
    exists p, In p ps /\ type p = "compensation_pending" /\
              window_size_of p = Some 12.
Proof.
  destruct (compensation_integer_thresholds lopsided_history 12)
    as (ps & E & [_ Hyes] & _).
  - vm_compute. discriminate.
  - left. reflexivity.
  - exists ps. split; [exact E|]. apply Hyes. vm_compute. discriminate.
Defined.

(** ** The compensation branch of the predictor *)

(** X9: when both levels are low and the pattern list holds a
    compensation_pending, the predictor reads the first such pattern: with
    a favored_color it returns the APOSTAR COMPENSAÇÃO prediction of that
    color with confidence min(75, 55 + 20 * strength); without the key it
    raises KeyError. *)
Theorem compensation_branch_reads_first (results : list string)
        (patterns : list Pattern) (risk manipulation : Assessment)
        (compensation_pattern : Pattern) :
  level risk = "low" -> level manipulation = "low" ->
  find is_compensation_pending patterns = Some compensation_pattern ->
  (forall window_size imbalance favored_color,
      extra compensation_pattern
      = CompensationPayload window_size imbalance favored_color ->
      make_prediction results patterns risk manipulation
      = Ok (compensation_prediction compensation_pattern favored_color)) /\
  ((forall window_size imbalance favored_color,
       extra compensation_pattern
       <> CompensationPayload window_size imbalance favored_color) ->
   make_prediction results patterns risk manipulation = Exn KeyError).
Proof.
  intros Hr Hm Hf.
  assert (E : make_prediction results patterns risk manipulation
              = color <- item_favored_color compensation_pattern ;;
                Ok (compensation_prediction compensation_pattern color)).
  { unfold make_prediction, both_low. rewrite Hr, Hm, Hf. reflexivity. }
  rewrite E. unfold item_favored_color. split.
  - intros w i c He. now rewrite He.
  - intros Hno. destruct (extra compensation_pattern) as [| | |w i c| |];
      try reflexivity.
    now destruct (Hno w i c).
Qed.

Lemma compensation_branch_reads_first_witness :
  make_prediction lopsided_history tempting_patterns low_assessment
                  low_assessment
  = Ok (compensation_prediction (compensation_pending 12 6 9 3 (6 # 12)) "V").
Proof.
  destruct (compensation_branch_reads_first
              lopsided_history tempting_patterns low_assessment low_assessment
              (compensation_pending 12 6 9 3 (6 # 12))
              eq_refl eq_refl eq_refl)
    as [Hyes _].
  apply (Hyes 12 6 "V"). reflexivity.
Defined.

(** ** What the pipeline can predict *)

Lemma micro_pipeline_ok (results : list string) (ps : list Pattern) :
  analyze_micro_patterns results = Ok ps -> Forall pipeline_pattern_ok ps.
Proof.
  intros E.
  destruct (Z.lt_ge_cases (len results) 6) as [H|H].
  - unfold analyze_micro_patterns in E.
    replace (len results <? 6) with true in E
      by (symmetry; apply Z.ltb_lt; lia).
    injection E as <-. constructor.
  - destruct (analyze_micro_patterns_shape results) as (dpc & _ & _ & E'); [lia|].
    rewrite E' in E. injection E as <-.
    apply Forall_app. split.
    + destruct (dpc >=? 2); repeat constructor; intros Ht; discriminate Ht.
    + destruct (len (last8_non_empate results) >=? 6); [|constructor].
      cbv zeta. destruct (_ >=? 4); repeat constructor;
        intros Ht; discriminate Ht.
Qed.

Lemma cycle_of_size_pipeline_ok (non_empate : list string) (cycle_size : Z)
      (p : Pattern) :
  cycle_of_size_ok non_empate cycle_size p -> pipeline_pattern_ok p.
Proof.
  intros (s & n & -> & Hn & _). split.
  - intros _. unfold get_predictability, hidden_cycle. cbn [predictability].
    unfold Qle_bool, inject_Z. cbn [Qnum Qden]. apply Z.leb_le. lia.
  - intros Ht. discriminate Ht.
Qed.

Lemma hidden_pipeline_ok (results : list string) (ps : list Pattern) :
  detect_hidden_cycles results = Ok ps -> Forall pipeline_pattern_ok ps.
Proof.
  intros E.
  assert (H : exists qs, detect_hidden_cycles results = Ok qs /\
                         Forall pipeline_pattern_ok qs).
  { unfold detect_hidden_cycles. cbv zeta.
    destruct (len (non_empate results) <? 12).
    - exists []. split; [reflexivity | constructor].
    - apply for_append_ok. intros sz _.
      destruct (hidden_cycles_of_size_spec (non_empate results) sz)
        as (qs & Eq & _ & F & _).
      exists qs. split; [exact Eq|].
      eapply Forall_impl; [|exact F].
      intros p. apply cycle_of_size_pipeline_ok. }
  destruct H as (qs & Eq & F). rewrite Eq in E. now injection E as <-.
Qed.

Lemma window_pipeline_ok (results : list string) (W : Z) (p : Pattern) :
  window_pattern_ok results W p -> pipeline_pattern_ok p.
Proof.
  intros (_ & [(Ht & _)|(Ht & Hr & Hs & Hc)]); split; intros Ht';
    rewrite Ht in Ht'; try discriminate Ht'.
  rewrite Hs.
  destruct Hc as [(He & _)|(He & _)]; do 3 eexists;
    (split; [exact He | split; [auto | exact Hr]]).
Qed.

Lemma compensation_pipeline_ok (results : list string) (ps : list Pattern) :
  analyze_compensation_patterns results = Ok ps -> Forall pipeline_pattern_ok ps.
Proof.
  intros E.
  destruct (Z.lt_ge_cases (len (non_empate results)) 20) as [Hn|Hn].
  - unfold analyze_compensation_patterns in E. cbv zeta in E.
    replace (len (non_empate results) <? 20) with true in E
      by (symmetry; apply Z.ltb_lt; lia).
    injection E as <-. constructor.
  - destruct (analyze_compensation_patterns_shape results Hn)
      as (ps12 & ps15 & ps18 & E' & _ & F12 & _ & F15 & _ & F18).
    rewrite E' in E. injection E as <-.
    repeat (apply Forall_app; split);
      eapply Forall_impl; try eassumption;
      intros p; apply window_pipeline_ok.
Qed.

Lemma tie_pipeline_ok (results : list string) (p : Pattern) :
  tie_pattern_ok results p -> pipeline_pattern_ok p.
Proof.
  intros (pre & a & b & c & post & _ & [(-> & _)|(x & y & rest & _ & -> & _)]);
    split; intros Ht; discriminate Ht.
Qed.

Lemma ties_pipeline_ok (results : list string) (ps : list Pattern) :
  analyze_strategic_ties results = Ok ps -> Forall pipeline_pattern_ok ps.
Proof.
  intros E.
  assert (H : exists qs, analyze_strategic_ties results = Ok qs /\
                         Forall pipeline_pattern_ok qs).
  { unfold analyze_strategic_ties. destruct (len results <? 8).
    - exists []. split; [reflexivity | constructor].
    - apply for_append_ok. intros tie_pos Hin.
      destruct (strategic_ties_at_spec results tie_pos Hin) as (qs & Eq & F).
      exists qs. split; [exact Eq|].
      eapply Forall_impl; [|exact F]. intros p. apply tie_pipeline_ok. }
  destruct H as (qs & Eq & F). rewrite Eq in E. now injection E as <-.
Qed.

(** One pattern of predictability 80 or more adds at least 60. *)
Lemma manipulation_score_programmed (ps : list Pattern) (p : Pattern) :
  In p ps -> Qle_bool 80 (get_predictability p) = true ->
  forall acc, fst acc + 60 <= fst (fold_left manipulation_step ps acc).
Proof.
  intros Hin Hp. induction ps as [|q ps IH]; [contradiction|].
  intros acc. simpl. destruct Hin as [->|Hin].
  - pose proof (fold_left_fst_mono manipulation_step ps manipulation_step_fst
                                   (manipulation_step acc p)) as Hm.
    assert (Hs : fst acc + 60 <= fst (manipulation_step acc p)).
    { destruct acc as [n fs]. unfold manipulation_step. cbv zeta.
      rewrite Hp. destruct (Qle_bool 90 (get_predictability p)); simpl; lia. }
    lia.
  - specialize (IH Hin (manipulation_step acc q)).
    pose proof (manipulation_step_fst acc q). lia.
Qed.

Lemma programmed_pattern_not_low (ps : list Pattern) (p : Pattern)
      (risk : Assessment) :
  In p ps -> Qle_bool 80 (get_predictability p) = true ->
  level (detect_manipulation ps risk) <> "low".
Proof.
  intros Hin Hp Hl.
  pose proof (manipulation_score_programmed ps p Hin Hp (0, [])) as Hs.
  unfold detect_manipulation in Hl.
  destruct (fold_left manipulation_step ps (0, [])) as [n fs].
  cbn [level fst] in *. apply manipulation_level_low in Hl. lia.
Qed.

(** Every analysis ends in one of five ways; the cycle branch is not one
    of them. *)
Lemma analyze_prediction_cases (history : list string) :
  exists r, analyze history = Ok r /\ prediction_case history r.
Proof.
  destruct (analyze_shape history)
    as (micro & hidden & comp & ties & pred & Em & Eh & Ec & Et & Ep & E).
  cbv zeta in Ep, E.
  set (all := (micro ++ hidden ++ comp ++ ties)%list) in *.
  assert (Fall : Forall pipeline_pattern_ok all).
  { repeat (apply Forall_app; split);
      [eapply micro_pipeline_ok | eapply hidden_pipeline_ok
       | eapply compensation_pipeline_ok | eapply ties_pipeline_ok];
      eassumption. }
  rewrite Forall_forall in Fall.
  eexists. split; [exact E|]. unfold prediction_case.
  cbn [prediction patterns].
  set (risk := assess_risk all) in *.
  set (manip := detect_manipulation all risk) in *.
  assert (Hdom : forall pr, bet_on_dominant history = Ok pr ->
            (non_empate history = [] /\ pr = default_prediction)
            \/ (exists c n,
                   non_empate history <> [] /\ dominant history = Ok (c, n) /\
                   pr = dominant_prediction c n (len (non_empate history)))).
  { intros pr Hpr. destruct (non_empate history) as [|y l] eqn:El.
    - left. split; [reflexivity|]. unfold bet_on_dominant in Hpr.
      cbv zeta in Hpr. rewrite El in Hpr. now injection Hpr as <-.
    - right. destruct (bet_on_dominant_spec history) as (c & n & Hd & Hb);
        [rewrite El; discriminate|].
      rewrite El in Hb. rewrite Hb in Hpr. injection Hpr as <-.
      exists c, n. split; [discriminate | split; [exact Hd | reflexivity]]. }
  assert (Hcyc : forall pr, follow_cycle history all risk manip = Ok pr ->
                            bet_on_dominant history = Ok pr).
  { intros pr Hpr. unfold follow_cycle in Hpr.
    destruct (find is_repeated_cycle all) as [cp|] eqn:Ef; [|exact Hpr].
    destruct (both_low risk manip) eqn:Elow; [|exact Hpr].
    exfalso. apply find_some in Ef. destruct Ef as [Hin Hrep].
    unfold is_repeated_cycle in Hrep. apply andb_true_iff in Hrep.
    destruct Hrep as [Hty _]. apply String.eqb_eq in Hty.
    destruct (Fall cp Hin) as [Hpred _].
    unfold both_low in Elow. apply andb_true_iff in Elow.
    destruct Elow as [_ Hl]. apply String.eqb_eq in Hl.
    exact (programmed_pattern_not_low all cp risk Hin (Hpred Hty) Hl). }
  unfold make_prediction in Ep.
  destruct (_ || _); [left; now injection Ep as <-|].
  destruct (level manip =? "high")%string;
    [right; left; now injection Ep as <-|].
  right. right.
  destruct (find is_compensation_pending all) as [cp|] eqn:Ef.
  - destruct (both_low risk manip) eqn:Elow.
    + left. apply find_some in Ef. destruct Ef as [Hin Hty].
      apply String.eqb_eq in Hty.
      destruct (Fall cp Hin) as [_ Hcomp].
      destruct (Hcomp Hty) as (w & i & c & He & Hc & Hs).
      unfold item_favored_color in Ep. rewrite He in Ep. cbn [bind] in Ep.
      injection Ep as <-. exists cp, c. repeat split; assumption.
    + right. apply Hdom, Hcyc, Ep.
  - right. apply Hdom, Hcyc, Ep.
Qed.

(** A pattern of predictability 80 or more leaves the predictor its first
    two branches only. *)
Lemma programmed_pattern_no_color (history : list string)
      (all : list Pattern) (p : Pattern) :
  In p all -> Qle_bool 80 (get_predictability p) = true ->
  make_prediction history all (assess_risk all)
                  (detect_manipulation all (assess_risk all))
  = Ok stop_prediction
  \/ make_prediction history all (assess_risk all)
                     (detect_manipulation all (assess_risk all))
     = Ok wait_prediction.
Proof.
  intros Hin Hp.
  pose proof (manipulation_score_programmed all p Hin Hp (0, [])) as Hs.
  unfold make_prediction, detect_manipulation.
  destruct (fold_left manipulation_step all (0, [])) as [n fs].
  cbn [level fst] in *. unfold manipulation_level.
  destruct (Z.geb_spec n 80).
  - left. now rewrite orb_true_r.
  - replace (n >=? 60) with true by (symmetry; apply Z.geb_le; lia).
    change (("high" =? "critical")%string) with false.
    rewrite orb_false_r.
    destruct (level (assess_risk all) =? "critical")%string;
      [left | right]; reflexivity.
Qed.

(** The analysis of a history, its patterns by detector and what they
    satisfy. *)
Lemma analyze_patterns_inv (history : list string) :
  exists r hidden,
    analyze history = Ok r /\
    detect_hidden_cycles history = Ok hidden /\
    incl hidden (patterns r) /\
    Forall pipeline_pattern_ok (patterns r) /\
    make_prediction history (patterns r) (assess_risk (patterns r))
                    (detect_manipulation (patterns r)
                                         (assess_risk (patterns r)))
    = Ok (prediction r).
Proof.
  destruct (analyze_shape history)
    as (micro & hidden & comp & ties & pred & Em & Eh & Ec & Et & Ep & E).
  cbv zeta in Ep, E. eexists. exists hidden.
  split; [exact E|]. cbn [patterns prediction].
  split; [exact Eh|]. split; [|split; [|exact Ep]].
  - intros p Hp. apply in_or_app. right. apply in_or_app. now left.
  - repeat (apply Forall_app; split);
      [eapply micro_pipeline_ok | eapply hidden_pipeline_ok
       | eapply compensation_pipeline_ok | eapply ties_pipeline_ok];
      eassumption.
Qed.

(** X10: the analysis of a history never ends with SEGUIR CICLO: its
    strategy is one of the five others, and whenever a hidden_cycle is among
    its patterns the prediction is the stop or the wait prediction (no
    color), because a hidden cycle has predictability 80 or more. *)
Theorem analyze_never_follows_cycle (history : list string) :
  exists r,
    analyze history = Ok r /\
    In (strategy (prediction r)) pipeline_strategies /\
    strategy (prediction r) <> "SEGUIR CICLO" /\
    (forall p, In p (patterns r) -> type p = "hidden_cycle" ->
               prediction r = stop_prediction
               \/ prediction r = wait_prediction).
Proof.
  destruct (analyze_prediction_cases history) as (r & E & Hcase).
  destruct (analyze_patterns_inv history) as (r' & _ & E' & _ & _ & Fall & Ep).
  rewrite E in E'. injection E' as <-.
  exists r. split; [exact E|].
  assert (Hin : In (strategy (prediction r)) pipeline_strategies).
  { unfold pipeline_strategies.
    destruct Hcase as [->|[->|[(cp & c & _ & _ & _ & ->)|[[_ ->]
                      |(c & n & _ & _ & ->)]]]]; simpl; auto 6. }
  split; [exact Hin|]. split.
  - intros Hs. rewrite Hs in Hin. unfold pipeline_strategies in Hin.
    simpl in Hin. intuition discriminate.
  - intros p Hp Ht. rewrite Forall_forall in Fall.
    destruct (Fall p Hp) as [Hpred _].
    destruct (programmed_pattern_no_color history (patterns r) p Hp (Hpred Ht))
      as [H|H]; rewrite H in Ep; injection Ep as <-; auto.
Qed.

Lemma count_pos_in (l : list string) (x : string) : 0 < count l x -> In x l.
Proof.
  unfold count, len. intros H.
  destruct (filter (fun r => (r =? x)%string) l) as [|y t] eqn:E;
    [simpl in H; lia|].
  assert (Hy : In y (filter (fun r => (r =? x)%string) l))
    by (rewrite E; now left).
  apply filter_In in Hy. destruct Hy as [Hy Hx].
  apply String.eqb_eq in Hx. now subst y.
Qed.

Lemma in_non_empate (history : list string) (x : string) :
  In x (non_empate history) -> In x history /\ x <> "E".
Proof.
  unfold non_empate. rewrite filter_In. intros [Hin Hx].
  split; [exact Hin|]. intros ->. discriminate Hx.
Qed.

(** X11: the prediction of an analysis has a confidence between 0 and 75;
    the confidence is 0 exactly when no color is suggested; a suggested
    color is never the tie 'E': it is 'C' or 'V' or a non-tie value of the
    history. *)
Theorem analyze_confidence_and_color (history : list string) :
  exists r,
    analyze history = Ok r /\
    (0 <= confidence (prediction r) <= 75)%Q /\
    (color (prediction r) = None <-> (confidence (prediction r) == 0)%Q) /\
    (forall c, color (prediction r) = Some c ->
               c <> "E" /\ (c = "C" \/ c = "V" \/ In c history)).
Proof.
  destruct (analyze_prediction_cases history) as (r & E & Hcase).
  exists r. split; [exact E|].
  destruct Hcase as [->|[->|[(cp & c & _ & Hc & Hs & ->)|[[_ ->]
                    |(c & n & Hne & Hd & ->)]]]];
    cbn [confidence color stop_prediction wait_prediction default_prediction
         compensation_prediction dominant_prediction].
  - split; [lra|]. split; [split; reflexivity | discriminate].
  - split; [lra|]. split; [split; reflexivity | discriminate].
  - destruct (min_Q_cases 75 (55 + strength cp * 20)) as [[H ->]|[H ->]].
    + split; [lra|]. split; [split; [discriminate | lra]|].
      intros c' Hc'. injection Hc' as <-.
      destruct Hc as [-> | ->]; (split; [discriminate | auto]).
    + split; [lra|]. split; [split; [discriminate | lra]|].
      intros c' Hc'. injection Hc' as <-.
      destruct Hc as [-> | ->]; (split; [discriminate | auto]).
  - split; [lra|]. split; [split; reflexivity | discriminate].
  - destruct (dominant_spec history Hne) as (c' & n' & Hd' & Hn & Hpos & _).
    rewrite Hd in Hd'. injection Hd' as <- <-.
    assert (Hshare : (0 < n # Z.to_pos (len (non_empate history)))%Q)
      by (unfold Qlt; cbn [Qnum Qden]; lia).
    assert (Hin : In c (non_empate history))
      by (apply count_pos_in; lia).
    apply in_non_empate in Hin.
    destruct (min_Q_cases ((n # Z.to_pos (len (non_empate history))) * 100) 75)
      as [[H ->]|[H ->]].
    + split; [lra|]. split; [split; [discriminate | lra]|].
      intros c' Hc'. injection Hc' as <-. split; [tauto | right; right; tauto].
    + split; [lra|]. split; [split; [discriminate | lra]|].
      intros c' Hc'. injection Hc' as <-. split; [tauto | right; right; tauto].
Qed.

(** ** Long histories over the alphabet *)

Lemma total_counter_add (k : string) (c : list (string * Z)) :
  total (counter_add k c) = total c + 1.
Proof.
  induction c as [|[k' n] c IH]; [reflexivity|].
  cbn [counter_add].
  destruct (k =? k')%string; unfold total in *; cbn [fold_right snd] in *; lia.
Qed.

Lemma total_Counter (l : list string) : total (Counter l) = len l.
Proof.
  unfold Counter.
  assert (H : forall c, total (fold_left (fun c k => counter_add k c) l c)
                        = total c + len l).
  { induction l as [|x l IH]; intros c; simpl.
    - unfold len. simpl. lia.
    - rewrite IH, total_counter_add, len_cons. lia. }
  rewrite H. reflexivity.
Qed.

Lemma total_le_length (c : list (string * Z)) :
  (forall kv, In kv c -> snd kv < 2) -> total c <= len c.
Proof.
  induction c as [|kv c IH]; intros H.
  - unfold len. simpl. lia.
  - rewrite len_cons. pose proof (H kv (or_introl eq_refl)) as Hkv.
    assert (total c <= len c) by (apply IH; intros x Hx; apply H; now right).
    unfold total in *. cbn [fold_right]. lia.
Qed.

Lemma non_empate_valid (history : list string) :
  valid_history history ->
  forall r, In r (non_empate history) -> r = "C" \/ r = "V".
Proof.
  intros Hv r Hr. apply in_non_empate in Hr. destruct Hr as [Hin HE].
  unfold valid_history in Hv. rewrite Forall_forall in Hv.
  specialize (Hv r Hin). unfold valid_outcome in Hv.
  apply orb_true_iff in Hv. destruct Hv as [Hv|Hv].
  - apply orb_true_iff in Hv. destruct Hv as [Hv|Hv];
      apply String.eqb_eq in Hv; auto.
  - apply String.eqb_eq in Hv. contradiction.
Qed.

Lemma slice_three {A : Type} (l : list A) (i : Z) :
  0 <= i -> i + 3 <= len l ->
  exists x y z, slice l i (i + 3) = [x; y; z] /\ In x l /\ In y l /\ In z l.
Proof.
  intros Hi Hl.
  assert (Hlen : len (firstn (Z.to_nat i) l) = i).
  { unfold len in *. rewrite length_firstn. lia. }
  pose proof (length_skipn (Z.to_nat i) l) as Hs.
  assert (Hsl : slice l i (i + 3) = firstn 3 (skipn (Z.to_nat i) l)).
  { transitivity (slice (firstn (Z.to_nat i) l ++ skipn (Z.to_nat i) l)
                        (len (firstn (Z.to_nat i) l))
                        (len (firstn (Z.to_nat i) l) + 3)).
    - now rewrite Hlen, firstn_skipn.
    - apply (slice_after_prefix (firstn (Z.to_nat i) l)
                                (skipn (Z.to_nat i) l) 3). lia. }
  assert (Hin : forall x, In x (skipn (Z.to_nat i) l) -> In x l).
  { intros x Hx. rewrite <- (firstn_skipn (Z.to_nat i) l).
    apply in_or_app. now right. }
  rewrite Hsl.
  destruct (skipn (Z.to_nat i) l) as [|x [|y [|z t]]];
    simpl in Hs; unfold len in *; try lia.
  exists x, y, z. split; [reflexivity|].
  repeat split; apply Hin; simpl; auto.
Qed.

Lemma cycles_of_three_valid (ne : list string) (s : string) :
  (forall r, In r ne -> r = "C" \/ r = "V") ->
  In s (cycles_of ne 3) -> In s windows_of_three.
Proof.
  intros Hcv Hs. unfold cycles_of in Hs.
  apply in_map_iff in Hs. destruct Hs as (i & <- & Hi).
  pose proof (range_bounds 0 (len ne - 3 + 1)) as Hb.
  rewrite Forall_forall in Hb. specialize (Hb i Hi).
  destruct (slice_three ne i) as (x & y & z & -> & Hx & Hy & Hz); [lia | lia|].
  destruct (Hcv x Hx) as [-> | ->]; destruct (Hcv y Hy) as [-> | ->];
    destruct (Hcv z Hz) as [-> | ->]; vm_compute; auto 10.
Qed.

Lemma len_cycles_of (ne : list string) (cycle_size : Z) :
  cycle_size <= len ne -> len (cycles_of ne cycle_size) = len ne - cycle_size + 1.
Proof.
  intros H. unfold cycles_of, range, len in *.
  rewrite !length_map, length_seq. lia.
Qed.

Lemma Counter_positive (l : list string) (k : string) (n : Z) :
  In (k, n) (Counter l) -> 0 < n.
Proof.
  unfold Counter.
  assert (Hadd : forall x c, Forall (fun kv => 0 < snd kv) c ->
                             Forall (fun kv => 0 < snd kv) (counter_add x c)).
  { intros x c. induction c as [|[k' m] c IH]; intros F; simpl.
    - repeat constructor.
    - inversion F as [|? ? Hm F']; subst. cbn [snd] in Hm.
      destruct (x =? k')%string; constructor; cbn [snd]; auto; lia. }
  assert (H : forall c, Forall (fun kv => 0 < snd kv) c ->
                        Forall (fun kv => 0 < snd kv)
                               (fold_left (fun c k => counter_add k c) l c)).
  { induction l as [|x l IH]; intros c F; simpl; [exact F|].
    apply IH, Hadd, F. }
  intros Hin. specialize (H [] (Forall_nil _)).
  rewrite Forall_forall in H. exact (H (k, n) Hin).
Qed.

(** Ten or more windows over eight possible strings: one occurs twice. *)
Lemma some_window_repeats (ne : list string) :
  (forall r, In r ne -> r = "C" \/ r = "V") -> 12 <= len ne ->
  ~ (forall s, count (cycles_of ne 3) s < 2).
Proof.
  intros Hcv Hn Hall.
  set (cs := cycles_of ne 3) in *.
  assert (Hkeys : incl (map fst (Counter cs)) windows_of_three).
  { intros k Hk. apply in_map_iff in Hk. destruct Hk as ([k' n] & <- & Hin).
    cbn [fst]. apply (cycles_of_three_valid ne k' Hcv).
    apply count_pos_in. fold cs.
    rewrite <- (in_Counter_count cs k' n Hin).
    exact (Counter_positive cs k' n Hin). }
  pose proof (NoDup_incl_length (Counter_keys cs) Hkeys) as Hlen.
  rewrite length_map in Hlen. change (length windows_of_three) with 8%nat in Hlen.
  assert (Htot : total (Counter cs) <= len (Counter cs)).
  { apply total_le_length. intros [k n] Hin. cbn [snd].
    rewrite (in_Counter_count cs k n Hin). apply Hall. }
  rewrite total_Counter in Htot. subst cs.
  rewrite len_cycles_of in Htot by lia. unfold len in *. lia.
Qed.

Lemma for_append_cons {A B : Type} (body : A -> res (list B)) (x : A)
      (l : list A) :
  for_append body (x :: l)
  = (ps <- body x ;; qs <- for_append body l ;; Ok (ps ++ qs)%list).
Proof. reflexivity. Qed.

(** On a long history over the alphabet the first cycle size already
    yields a pattern. *)
Lemma valid_long_history_has_cycle (history : list string) :
  valid_history history -> 12 <= len (non_empate history) ->
  exists hidden p,
    detect_hidden_cycles history = Ok hidden /\ In p hidden /\
    cycle_of_size_ok (non_empate history) 3 p.
Proof.
  intros Hv Hn.
  destruct (hidden_cycles_of_size_spec (non_empate history) 3)
    as (ps3 & E3 & _ & F3 & Hnil).
  destruct ps3 as [|p ps3].
  { exfalso.
    apply (some_window_repeats (non_empate history));
      [now apply non_empate_valid | exact Hn | now apply Hnil]. }
  destruct (for_append_ok (fun _ => True)
              (hidden_cycles_of_size (non_empate history)) [4; 5; 6])
    as (rest & Er & _).
  { intros sz _.
    destruct (hidden_cycles_of_size_spec (non_empate history) sz)
      as (qs & Eq & _).
    exists qs. split; [exact Eq|]. apply Forall_forall. intros; exact I. }
  exists ((p :: ps3) ++ rest)%list, p.
  split; [|split; [now left | now inversion F3]].
  unfold detect_hidden_cycles. cbv zeta.
  replace (len (non_empate history) <? 12) with false
    by (symmetry; apply Z.ltb_ge; lia).
  change (range 3 7) with [3; 4; 5; 6].
  rewrite for_append_cons, E3. cbn [bind]. rewrite Er. reflexivity.
Qed.

(** X12: on a history over the alphabet C, V, E with at least 12 non-tie
    outcomes, some window of three non-tie outcomes occurs twice (there are
    at least ten windows and eight possible ones), so a hidden_cycle of
    size 3 is among the patterns and the analysis suggests no color: the
    prediction is the stop or the wait prediction. *)
Theorem valid_long_history_no_bet (history : list string) :
  valid_history history -> 12 <= len (non_empate history) ->
  exists r p,
    analyze history = Ok r /\
    In p (patterns r) /\ cycle_of_size_ok (non_empate history) 3 p /\
    (prediction r = stop_prediction \/ prediction r = wait_prediction).
Proof.
  intros Hv Hn.
  destruct (valid_long_history_has_cycle history Hv Hn)
    as (hidden & p & Eh & Hin & Hok).
  destruct (analyze_patterns_inv history)
    as (r & hidden' & E & Eh' & Hincl & _ & Ep).
  rewrite Eh in Eh'. injection Eh' as <-.
  exists r, p. split; [exact E|]. split; [now apply Hincl|].
  split; [exact Hok|].
  destruct (cycle_of_size_pipeline_ok _ _ _ Hok) as [Hpred _].
  assert (Hty : type p = "hidden_cycle")
    by (destruct Hok as (s & n & -> & _); reflexivity).
  destruct (programmed_pattern_no_color history (patterns r) p
              (Hincl p Hin) (Hpred Hty)) as [H|H];
    rewrite H in Ep; injection Ep as <-; auto.
Qed.

Lemma valid_long_history_no_bet_witness :
  exists r, analyze (repeat "C" 7 ++ repeat "V" 5) = Ok r /\
            color (prediction r) = None.
Proof.
  destruct (valid_long_history_no_bet (repeat "C" 7 ++ repeat "V" 5))
    as (r & p & E & _ & _ & Hp).
  - repeat constructor.
  - vm_compute. discriminate.
  - exists r. split; [exact E|]. now destruct Hp as [-> | ->].
Defined.

(** * The host *)

Lemma valid_append (history : list string) (x : string) :
  valid_history history -> valid_outcome x = true ->
  valid_history (append history x).
Proof.
  intros Hv Hx. unfold append, valid_history.
  apply Forall_app. split; [exact Hv | now repeat constructor].
Qed.

Lemma valid_removelast (history : list string) :
  valid_history history -> valid_history (removelast history).
Proof.
  unfold valid_history. rewrite !Forall_forall.
  intros Hv x Hx. apply Hv.
  destruct history as [|y l]; [contradiction|].
  destruct (@exists_last _ (y :: l)) as (l' & z & E); [discriminate|].
  rewrite E in *. rewrite removelast_last in Hx.
  apply in_or_app. now left.
Qed.

(** The update of the session history never raises and keeps the history
    over the alphabet. *)
Lemma update_history_valid (session : option (list string)) (b : Buttons) :
  (forall h, session = Some h -> valid_history h) ->
  exists h', update_history session b = Ok h' /\ valid_history h'.
Proof.
  intros Hs. unfold update_history.
  set (h0 := match session with Some h => h | None => [] end).
  assert (H0 : valid_history h0).
  { subst h0. destruct session as [h|]; [now apply Hs | constructor]. }
  set (h1 := if btn_c b then append h0 "C" else h0).
  assert (H1 : valid_history h1)
    by (subst h1; destruct (btn_c b); [now apply valid_append | exact H0]).
  set (h2 := if btn_v b then append h1 "V" else h1).
  assert (H2 : valid_history h2)
    by (subst h2; destruct (btn_v b); [now apply valid_append | exact H1]).
  set (h3 := if btn_e b then append h2 "E" else h2).
  assert (H3 : valid_history h3)
    by (subst h3; destruct (btn_e b); [now apply valid_append | exact H2]).
  set (h4 := if btn_clear b then [] else h3).
  assert (H4 : valid_history h4)
    by (subst h4; destruct (btn_clear b); [constructor | exact H3]).
  clearbody h4. cbv zeta.
  destruct (btn_undo b); [|now exists h4].
  destruct h4 as [|y l]; [now exists []|].
  exists (removelast (y :: l)). split; [reflexivity|].
  now apply valid_removelast.
Qed.

Lemma reachable_valid (history : list string) :
  reachable history -> valid_history history.
Proof.
  induction 1 as [b h E|b h h' _ IH E].
  - destruct (update_history_valid None b) as (h' & E' & Hv);
      [discriminate|].
    rewrite E in E'. now injection E' as <-.
  - destruct (update_history_valid (Some h) b) as (h'' & E' & Hv).
    + intros h0 Eh. now injection Eh as <-.
    + rewrite E in E'. now injection E' as <-.
Qed.

(** X13: whatever buttons a run of main reports, from a fresh session or
    from a history over the alphabet C, V, E, the run raises nothing (the
    undo pops only a non-empty history, the analysis always returns), the
    new history is over the alphabet, and it is analyzed exactly when it is
    not empty. *)
Theorem run_main_never_raises (session : option (list string)) (b : Buttons) :
  (forall h, session = Some h -> valid_history h) ->
  exists history result,
    run_main session b = Ok (history, result) /\
    update_history session b = Ok history /\
    valid_history history /\
    (history = [] -> result = None) /\
    (history <> [] -> exists r, result = Some r /\ analyze history = Ok r).
Proof.
  intros Hs.
  destruct (update_history_valid session b Hs) as (h & E & Hv).
  destruct (analyze_shape h)
    as (micro & hidden & comp & ties & pred & _ & _ & _ & _ & _ & Ea).
  unfold run_main. rewrite E. cbn [bind].
  destruct h as [|y l].
  - exists [], None. repeat split; try assumption. intros H. now destruct H.
  - rewrite Ea. cbn [bind]. do 2 eexists.
    split; [reflexivity|]. split; [reflexivity|]. split; [exact Hv|].
    split; [discriminate|]. intros _. eexists. split; [reflexivity | exact Ea].
Qed.

Lemma run_main_never_raises_witness :
  exists history result,
    run_main (Some ["C"; "V"]) (click "E") = Ok (history, result) /\
    valid_history history.
Proof.
  destruct (run_main_never_raises (Some ["C"; "V"]) (click "E"))
    as (history & result & E & _ & Hv & _).
  - intros h Eh. injection Eh as <-. repeat constructor.
  - exists history, result. split; [exact E | exact Hv].
Defined.

(** X14: a click on an outcome button appends that outcome; the undo
    button then restores the history; the undo button on the empty history
    leaves it empty; the clear button empties any history. *)
Theorem undo_restores_history (history : list string) (outcome : string) :
  valid_outcome outcome = true ->
  update_history (Some history) (click outcome) = Ok (history ++ [outcome])%list /\
  update_history (Some (history ++ [outcome])%list) click_undo = Ok history /\
  update_history (Some []) click_undo = Ok [] /\
  update_history None click_undo = Ok [] /\
  update_history (Some history) click_clear = Ok [].
Proof.
  intros Hv.
  assert (Ho : outcome = "C" \/ outcome = "V" \/ outcome = "E").
  { unfold valid_outcome in Hv. apply orb_true_iff in Hv.
    destruct Hv as [Hv|Hv]; [apply orb_true_iff in Hv; destruct Hv as [Hv|Hv]|];
      apply String.eqb_eq in Hv; auto. }
  split; [|split; [|repeat split]].
  - destruct Ho as [-> | [-> | ->]]; reflexivity.
  - unfold update_history, click_undo. cbn [btn_c btn_v btn_e btn_clear btn_undo].
    cbv zeta. destruct (history ++ [outcome])%list as [|y l] eqn:E.
    + now destruct history.
    + unfold pop. rewrite <- E. now rewrite removelast_last.
Qed.

Lemma undo_restores_history_witness :
  update_history (Some (["C"; "E"] ++ ["V"])%list) click_undo = Ok ["C"; "E"].
Proof.
  destruct (undo_restores_history ["C"; "E"] "V") as (_ & H & _).
  - reflexivity.
  - exact H.
Defined.

(** X15: every history that runs of main can produce from a fresh
    session is over the alphabet, its analysis returns, and a color that
    the analysis suggests is 'C' or 'V'. *)
Theorem reachable_history_bets_on_C_or_V (history : list string) :
  reachable history ->
  valid_history history /\
  exists r,
    analyze history = Ok r /\
    (forall c, color (prediction r) = Some c -> c = "C" \/ c = "V").
Proof.
  intros Hr. pose proof (reachable_valid history Hr) as Hv.
  split; [exact Hv|].
  destruct (analyze_prediction_cases history) as (r & E & Hcase).
  exists r. split; [exact E|].
  intros c Hc.
  destruct Hcase as [H|[H|[(cp & c' & _ & Hc' & _ & H)|[[_ H]
                    |(c' & n & Hne & Hd & H)]]]];
    rewrite H in Hc; try discriminate Hc.
  - injection Hc as <-. exact Hc'.
  - injection Hc as <-.
    destruct (dominant_spec history Hne) as (c'' & n' & Hd' & Hn & Hpos & _).
    rewrite Hd in Hd'. injection Hd' as <- <-.
    apply (non_empate_valid history Hv). apply count_pos_in. lia.
Qed.

Lemma reachable_history_bets_on_C_or_V_witness :
  exists r, analyze ["V"] = Ok r /\
            (forall c, color (prediction r) = Some c -> c = "C" \/ c = "V").
Proof.
  destruct (reachable_history_bets_on_C_or_V ["V"]) as [_ H].
  - apply (reachable_first (click "V")). reflexivity.
  - exact H.
Defined.

(** * The dominant color and its tie-break *)

(** [max] keeps the first of the elements of greatest key. *)
Lemma max_from_first {A : Type} (key : A -> Z) (l : list A) :
  forall d1 best d2,
    (forall x, In x d1 -> key x < key best) ->
    (forall x, In x d2 -> key x <= key best) ->
    exists l1 l2,
      (d1 ++ best :: d2 ++ l)%list = (l1 ++ max_from key best l :: l2)%list /\
      (forall x, In x l1 -> key x < key (max_from key best l)) /\
      (forall x, In x l2 -> key x <= key (max_from key best l)).
Proof.
  induction l as [|y l IH]; intros d1 best d2 H1 H2; cbn [max_from].
  - exists d1, d2. rewrite app_nil_r. now repeat split.
  - destruct (Z.ltb_spec (key best) (key y)) as [Hlt|Hge].
    + destruct (IH (d1 ++ best :: d2)%list y []) as (l1 & l2 & E & Hl1 & Hl2).
      * intros x Hx. apply in_app_or in Hx.
        destruct Hx as [Hx|[<-|Hx]];
          [specialize (H1 x Hx) | | specialize (H2 x Hx)]; lia.
      * intros x [].
      * exists l1, l2. split; [|now split].
        rewrite <- E. cbn [app]. now rewrite <- app_assoc.
    + destruct (IH d1 best (d2 ++ [y])%list) as (l1 & l2 & E & Hl1 & Hl2).
      * exact H1.
      * intros x Hx. apply in_app_or in Hx.
        destruct Hx as [Hx|[<-|[]]]; [now apply H2 | lia].
      * exists l1, l2. split; [|now split].
        rewrite <- E. now rewrite <- app_assoc.
Qed.

Lemma counter_add_new (k : string) (c : list (string * Z)) :
  ~ In k (map fst c) -> counter_add k c = (c ++ [(k, 1)])%list.
Proof.
  induction c as [|[k' n] c IH]; intros Hk; cbn [counter_add app];
    [reflexivity|].
  cbn [map fst] in Hk.
  destruct (String.eqb_spec k k') as [->|Hne].
  - exfalso. apply Hk. now left.
  - f_equal. apply IH. intros Hin. apply Hk. now right.
Qed.

Lemma counter_add_keys_prefix (k : string) (c : list (string * Z)) :
  exists more, map fst (counter_add k c) = (map fst c ++ more)%list.
Proof.
  induction c as [|[k' n] c [more IH]]; cbn [counter_add].
  - now exists [k].
  - destruct (k =? k')%string.
    + exists []. now rewrite app_nil_r.
    + exists more. cbn [map fst app]. now rewrite IH.
Qed.

Lemma fold_counter_keys_prefix (l : list string) (c : list (string * Z)) :
  exists more,
    map fst (fold_left (fun c k => counter_add k c) l c)
    = (map fst c ++ more)%list.
Proof.
  revert c. induction l as [|x l IH]; intros c; cbn [fold_left].
  - exists []. now rewrite app_nil_r.
  - destruct (IH (counter_add x c)) as [more E].
    destruct (counter_add_keys_prefix x c) as [more' E'].
    exists (more' ++ more)%list. now rewrite E, E', app_assoc.
Qed.

Lemma in_count_pos (l : list string) (x : string) : In x l -> 0 < count l x.
Proof.
  intros Hin. unfold count, len.
  assert (H : In x (filter (fun r => (r =? x)%string) l))
    by (apply filter_In; split; [exact Hin | apply String.eqb_refl]).
  destruct (filter (fun r => (r =? x)%string) l); [contradiction|].
  simpl. lia.
Qed.

Lemma Counter_key_iff (l : list string) (k : string) :
  In k (map fst (Counter l)) <-> In k l.
Proof.
  split.
  - intros Hk. apply in_map_iff in Hk. destruct Hk as ([k' n] & <- & Hin).
    cbn [fst]. apply count_pos_in.
    rewrite <- (in_Counter_count l k' n Hin).
    exact (Counter_positive l k' n Hin).
  - intros Hin. apply in_count_pos in Hin.
    apply count_in_Counter in Hin.
    change k with (fst (k, count l k)). now apply in_map.
Qed.

(** The keys of a [Counter] stand in the order of their first occurrence. *)
Lemma Counter_keys_first (pre post : list string) (c : string) :
  ~ In c pre ->
  exists more,
    map fst (Counter (pre ++ c :: post))
    = (map fst (Counter pre) ++ c :: more)%list.
Proof.
  intros Hc. unfold Counter. rewrite fold_left_app. cbn [fold_left].
  fold (Counter pre).
  rewrite (counter_add_new c (Counter pre))
    by (rewrite Counter_key_iff; exact Hc).
  destruct (fold_counter_keys_prefix post (Counter pre ++ [(c, 1)]))
    as [more E].
  exists more. rewrite E, map_app, <- app_assoc. reflexivity.
Qed.

Lemma NoDup_split_unique {A : Type} (a a' b b' : list A) (c : A) :
  NoDup (a ++ c :: b) -> (a ++ c :: b = a' ++ c :: b')%list -> a = a'.
Proof.
  revert a'. induction a as [|x a IH]; intros a' Hnd E.
  - destruct a' as [|y a']; [reflexivity|].
    cbn [app] in *. injection E as <- ->.
    inversion Hnd as [|? ? Hnotin _]; subst.
    exfalso. apply Hnotin. apply in_or_app. right. now left.
  - destruct a' as [|y a']; cbn [app] in *.
    + injection E as -> _.
      inversion Hnd as [|? ? Hnotin _]; subst.
      exfalso. apply Hnotin. apply in_or_app. right. now left.
    + injection E as <- E. f_equal.
      inversion Hnd as [|? ? _ Hnd']; subst. now apply IH.
Qed.

Lemma in_split_first (l : list string) (x : string) :
  In x l -> exists pre post, l = (pre ++ x :: post)%list /\ ~ In x pre.
Proof.
  induction l as [|y l IH]; intros Hin; [contradiction|].
  destruct (string_dec y x) as [->|Hne].
  - exists [], l. split; [reflexivity | intros []].
  - destruct Hin as [E|Hin]; [contradiction|].
    destruct (IH Hin) as (pre & post & -> & Hpre).
    exists (y :: pre), post. split; [reflexivity|].
    intros [E|H]; [contradiction | now apply Hpre].
Qed.

Lemma count_CV (l : list string) :
  (forall r, In r l -> r = "C" \/ r = "V") -> count l "C" + count l "V" = len l.
Proof.
  induction l as [|x l IH]; intros H.
  - reflexivity.
  - rewrite !count_cons, len_cons.
    assert (IH' : count l "C" + count l "V" = len l)
      by (apply IH; intros r Hr; apply H; now right).
    destruct (H x (or_introl eq_refl)) as [-> | ->];
      cbn [String.eqb Ascii.eqb Bool.eqb]; lia.
Qed.

(** X16: on a history with a non-tie outcome the last branch of the
    predictor bets on the outcome [c] that occurs most often among the
    non-tie outcomes; among the outcomes of that greatest count it takes
    the one seen first: every outcome seen before the first [c] occurs
    strictly less often.  The confidence is min(100 * count / total, 75),
    and on a history over the alphabet it lies between 50 and 75. *)
Theorem dominant_bet_is_first_most_frequent (history : list string) :
  non_empate history <> [] ->
  exists c n pre post,
    bet_on_dominant history
    = Ok (dominant_prediction c n (len (non_empate history))) /\
    non_empate history = (pre ++ c :: post)%list /\ ~ In c pre /\
    n = count (non_empate history) c /\
    (forall x, count (non_empate history) x <= n) /\
    (forall x, In x pre -> count (non_empate history) x < n) /\
    (valid_history history ->
     (50 <= confidence (dominant_prediction c n (len (non_empate history)))
      <= 75)%Q).
Proof.
  intros Hne.
  destruct (bet_on_dominant_spec history Hne) as (c & n & Hd & Hb).
  destruct (dominant_spec history Hne) as (c' & n' & Hd' & Hn & Hpos & Hmax).
  rewrite Hd in Hd'. injection Hd' as <- <-.
  assert (Hin : In c (non_empate history)) by (apply count_pos_in; lia).
  destruct (in_split_first _ _ Hin) as (pre & post & Esplit & Hpre).
  exists c, n, pre, post.
  split; [exact Hb|]. split; [exact Esplit|]. split; [exact Hpre|].
  split; [exact Hn|]. split; [exact Hmax|]. split.
  - (* the tie-break *)
    intros x Hx.
    remember (non_empate history) as ne eqn:Ene.
    assert (Hitem : exists l1 l2,
               Counter ne = (l1 ++ (c, n) :: l2)%list /\
               forall kv, In kv l1 -> snd kv < n).
    { unfold dominant, most_common_1 in Hd. rewrite <- Ene in Hd.
      destruct (Counter ne) as [|item0 rest] eqn:EC.
      - exfalso. now apply (Counter_nonempty ne).
      - cbn [max_by] in Hd.
        assert (Hm : max_from snd item0 rest = (c, n)).
        { cbv [index len length Z.of_nat Z.ltb Z.compare Z.leb orb Z.to_nat
                     nth_error] in Hd. now injection Hd. }
        destruct (max_from_first snd rest [] item0 []) as (l1 & l2 & E & H1 & _);
          [intros ? [] | intros ? [] |].
        rewrite Hm in *. cbn [app] in E. exists l1, l2. now split. }
    destruct Hitem as (l1 & l2 & EC & Hl1).
    destruct (Counter_keys_first pre post c Hpre) as [more Ekeys].
    rewrite <- Esplit in Ekeys.
    pose proof (Counter_keys ne) as Hnd.
    assert (Ek : map fst l1 = map fst (Counter pre)).
    { apply (NoDup_split_unique _ _ (map fst l2) more c).
      - rewrite EC in Hnd. now rewrite map_app in Hnd.
      - rewrite <- Ekeys, EC, map_app. reflexivity. }
    assert (Hk : In x (map fst l1))
      by (rewrite Ek; apply Counter_key_iff; exact Hx).
    apply in_map_iff in Hk. destruct Hk as ([x' m] & Ex & Hm).
    cbn [fst] in Ex. subst x'.
    specialize (Hl1 _ Hm). cbn [snd] in Hl1.
    assert (Hc : In (x, m) (Counter ne))
      by (rewrite EC; apply in_or_app; now left).
    rewrite <- (in_Counter_count ne x m Hc). exact Hl1.
  - (* the range of the confidence *)
    intros Hv. cbn [confidence dominant_prediction].
    pose proof (count_CV _ (non_empate_valid history Hv)) as Hcv.
    pose proof (Hmax "C") as HC. pose proof (Hmax "V") as HV.
    assert (Hhalf : (50 <= (n # Z.to_pos (len (non_empate history))) * 100)%Q).
    { unfold Qle, Qmult. cbn [Qnum Qden].
      rewrite Pos2Z.inj_mul, Z2Pos.id by lia. lia. }
    destruct (min_Q_cases ((n # Z.to_pos (len (non_empate history))) * 100) 75)
      as [[H ->]|[H ->]]; lra.
Qed.

Lemma dominant_bet_is_first_most_frequent_witness :
  exists n pre post,
    bet_on_dominant ["V"; "E"; "C"; "C"; "V"]
    = Ok (dominant_prediction "V" n 4) /\
    ["V"; "C"; "C"; "V"] = (pre ++ "V" :: post)%list.
Proof.
  destruct (dominant_bet_is_first_most_frequent ["V"; "E"; "C"; "C"; "V"])
    as (c & n & pre & post & Hb & Hs & Hpre & _).
  - discriminate.
  - assert (Hc : c = "V").
    { destruct pre as [|y pre]; cbn [app] in Hs.
      - now injection Hs.
      - injection Hs as <- Hs. vm_compute in Hb. now injection Hb. }
    subst c. exists n, pre, post. split; [exact Hb | exact Hs].
Defined.

(** * What the detectors do not miss *)

Lemma for_append_incl {A B : Type} (body : A -> res (list B)) (l : list A)
      (all : list B) (x : A) (ps : list B) :
  for_append body l = Ok all -> In x l -> body x = Ok ps -> incl ps all.
Proof.
  revert all. induction l as [|y l IH]; intros all E Hin Hb; [contradiction|].
  rewrite for_append_cons in E.
  destruct (body y) as [ps0|e] eqn:Ey; [|discriminate E]. cbn [bind] in E.
  destruct (for_append body l) as [qs|e] eqn:El; [|discriminate E].
  cbn [bind] in E. injection E as <-.
  destruct Hin as [->|Hin].
  - rewrite Hb in Ey. injection Ey as <-. now apply incl_appl.
  - apply incl_appr. now apply (IH qs).
Qed.

(** X17: on a history of at least 12 non-tie outcomes, for every cycle
    size in 3..6 of which some window occurs at least twice, the detector
    emits a hidden_cycle of that size (with the greatest number of
    occurrences, at least 2). *)
Theorem hidden_cycle_emitted_when_repeated (results : list string)
        (cycle_size : Z) (s : string) :
  12 <= len (non_empate results) -> In cycle_size (range 3 7) ->
  2 <= count (cycles_of (non_empate results) cycle_size) s ->
  exists ps p,
    detect_hidden_cycles results = Ok ps /\ In p ps /\
    cycle_of_size_ok (non_empate results) cycle_size p.
Proof.
  intros Hn Hsz Hs.
  destruct (hidden_cycles_of_size_spec (non_empate results) cycle_size)
    as (qs & Eq & _ & F & Hnil).
  destruct qs as [|p qs].
  { specialize (Hnil eq_refl s). lia. }
  destruct (detect_hidden_cycles_ok results) as (ps & E & _).
  exists ps, p. split; [exact E|].
  split; [|now inversion F].
  unfold detect_hidden_cycles in E. cbv zeta in E.
  replace (len (non_empate results) <? 12) with false in E
    by (symmetry; apply Z.ltb_ge; lia).
  apply (for_append_incl _ _ _ cycle_size (p :: qs) E Hsz Eq). now left.
Qed.

Lemma hidden_cycle_emitted_when_repeated_witness :
  exists ps p,
    detect_hidden_cycles (repeat "C" 7 ++ repeat "V" 5) = Ok ps /\ In p ps /\
    cycle_of_size_ok (non_empate (repeat "C" 7 ++ repeat "V" 5)) 4 p.
Proof.
  apply (hidden_cycle_emitted_when_repeated (repeat "C" 7 ++ repeat "V" 5)
                                            4 "CCCC").
  - vm_compute. discriminate.
  - vm_compute. auto.
  - vm_compute. discriminate.
Defined.

Lemma in_combine_range_complete (l : list string) (a k : nat) (r : string) :
  nth_error l k = Some r ->
  In (0 + Z.of_nat (a + k), r)
     (combine (map (fun k => 0 + Z.of_nat k) (seq a (length l))) l).
Proof.
  revert a k. induction l as [|x l IH]; intros a k Hk.
  - destruct k; discriminate Hk.
  - destruct k as [|k]; cbn [length seq map combine].
    + injection Hk as ->. left. now rewrite Nat.add_0_r.
    + right. replace (a + S k)%nat with (S a + k)%nat by lia.
      apply IH. exact Hk.
Qed.

Lemma tie_positions_complete (l1 l2 : list string) :
  In (len l1) (tie_positions_of (l1 ++ "E" :: l2)).
Proof.
  unfold tie_positions_of, enumerate, range.
  apply in_map_iff. exists (len l1, "E"). split; [reflexivity|].
  apply filter_In. split; [|reflexivity].
  rewrite Z.sub_0_r. unfold len at 2. rewrite Nat2Z.id.
  pose proof (in_combine_range_complete (l1 ++ "E" :: l2) 0 (length l1) "E")
    as H.
  cbn [Nat.add Z.add] in H. apply H.
  rewrite nth_error_app2, Nat.sub_diag by lia. reflexivity.
Qed.

(** X18: on a history of at least 8 outcomes, at every tie that has the
    outcomes a b c before it: when b = c is not a tie, the detector emits
    the strategic_tie_after_sequence of that position, color c and length
    3 (a = c) or 2; when at least two outcomes follow the tie, the first
    being x, and c and x are not ties and differ, it emits the
    strategic_tie_before_reversal of that position from c to x. *)
Theorem strategic_ties_found (pre post : list string) (a b c : string) :
  8 <= len (pre ++ [a; b; c] ++ "E" :: post) ->
  exists ps,
    analyze_strategic_ties (pre ++ [a; b; c] ++ "E" :: post) = Ok ps /\
    (b = c -> c <> "E" ->
     In (strategic_tie_after_sequence (len pre + 3) c
           (if (a =? c)%string then 3 else 2)) ps) /\
    (forall x y rest,
        post = x :: y :: rest -> c <> "E" -> x <> "E" -> c <> x ->
        In (strategic_tie_before_reversal (len pre + 3) c x) ps).
Proof.
  intros Hlen.
  set (results := (pre ++ [a; b; c] ++ "E" :: post)%list) in *.
  destruct (analyze_strategic_ties_ok results) as (ps & E & _).
  exists ps. split; [exact E|].
  assert (Hpos : In (len pre + 3) (tie_positions_of results)).
  { subst results.
    replace (pre ++ [a; b; c] ++ "E" :: post)%list
      with ((pre ++ [a; b; c]) ++ "E" :: post)%list
      by (now rewrite <- app_assoc).
    replace (len pre + 3) with (len (pre ++ [a; b; c]))
      by (rewrite len_app; reflexivity).
    apply tie_positions_complete. }
  unfold analyze_strategic_ties in E.
  replace (len results <? 8) with false in E
    by (symmetry; apply Z.ltb_ge; lia).
  pose proof (for_append_incl _ _ _ _ _ E Hpos
                              (strategic_ties_at_shape pre post a b c))
    as Hincl.
  split.
  - intros -> HcE. apply Hincl. apply in_or_app. left.
    rewrite String.eqb_refl.
    destruct (String.eqb_spec c "E"); [contradiction | now left].
  - intros x y rest -> HcE HxE Hcx. apply Hincl. apply in_or_app. right.
    destruct (String.eqb_spec c "E"); [contradiction|].
    destruct (String.eqb_spec x "E"); [contradiction|].
    destruct (String.eqb_spec c x); [contradiction | now left].
Qed.

Lemma strategic_ties_found_witness :
  exists ps,
    analyze_strategic_ties ["V"; "C"; "C"; "C"; "E"; "V"; "V"; "E"] = Ok ps /\
    In (strategic_tie_after_sequence 4 "C" 3) ps.
Proof.
  destruct (strategic_ties_found ["V"] ["V"; "V"; "E"] "C" "C" "C")
    as (ps & E & Hafter & _).
  - vm_compute. discriminate.
  - exists ps. split; [exact E|]. apply Hafter; [reflexivity | discriminate].
Defined.

Lemma get_sequence_length_trailing_run_witness :
  get_sequence_length ["V"; "C"; "C"] = Ok (trailing_run ["V"; "C"; "C"]) /\
  1 <= trailing_run ["V"; "C"; "C"] <= len ["V"; "C"; "C"].
Proof.
  destruct (get_sequence_length_trailing_run ["V"; "C"; "C"]) as (E & _ & H).
  split; [exact E | apply H; discriminate].
Defined.
